(** * Idealista contacts scraper: contact extraction and listing filter

    A shallow embedding of [main.py]: the regular expressions of the
    pattern extractors run on a small backtracking matcher that follows
    Python's [re] module (leftmost match, greedy quantifiers, alternatives
    tried left to right, [findall] returning the group of a one-group
    pattern), and the two fetchers run in a state-and-exception monad over
    a world that answers HTTP requests.

    Python strings are modelled by [string]: sequences of code points
    below 256.  On that range [\d] is [0-9], [\s] is the white space of
    [str.isspace], and IGNORECASE folds [A-Z] and the Latin-1 capitals.
    Texts with a code point from 256 on are outside the model: there [\d]
    also matches the other decimal digits of Unicode, and IGNORECASE lets
    [k] and [s] match U+212A and U+017F.  What is proved of the extractors
    is proved of texts below 256. *)

From Stdlib Require Import String Ascii List ZArith Lia Bool Arith.
From Stdlib Require Import DecimalString DecimalPos DecimalZ.
Import ListNotations.

Open Scope string_scope.
Open Scope list_scope.
Open Scope nat_scope.

(** ** Character classes of Python's [re] on code points below 256 *)

Module Chars.

Definition code (c : ascii) : nat := nat_of_ascii c.

Definition between (lo hi : nat) (c : ascii) : bool :=
  (lo <=? code c) && (code c <=? hi).

(** [\d] *)
Definition digit (c : ascii) : bool := between 48 57 c.

(** [\s]: tab, LF, VT, FF, CR, the four separators FS..US, space, NEL
    and the no-break space. *)
Definition space (c : ascii) : bool :=
  between 9 13 c || between 28 32 c || (code c =? 133) || (code c =? 160).

Definition lit (a : ascii) (c : ascii) : bool := Ascii.eqb a c.

Definition one_of (cs : string) (c : ascii) : bool :=
  existsb (Ascii.eqb c) (list_ascii_of_string cs).

Definition alpha (c : ascii) : bool := between 97 122 c || between 65 90 c.

(** Simple lower- and upper-case mappings, restricted to the range. *)
Definition lower (c : ascii) : ascii :=
  if between 65 90 c || between 192 214 c || between 216 222 c
  then ascii_of_nat (code c + 32) else c.

Definition upper (c : ascii) : ascii :=
  if between 97 122 c || between 224 246 c || between 248 254 c
  then ascii_of_nat (code c - 32) else c.

(** Membership test of a class under the flags of the call. *)
Definition test (ignorecase : bool) (p : ascii -> bool) (c : ascii) : bool :=
  if ignorecase then p c || p (lower c) || p (upper c) else p c.

End Chars.

(** ** A backtracking matcher with Python's priorities *)

Module Re.

Inductive regex : Type :=
| Eps
| Charset (p : ascii -> bool)
| Seq (r1 r2 : regex)
| Alt (r1 r2 : regex)
| Repeat (lo : nat) (hi : option nat) (r : regex)
| Group (r : regex).

(** Results of the [re] functions: a string, or a tuple of strings. *)
Inductive pyobj : Type :=
| PyStr (s : string)
| PyTuple (l : list string).

Fixpoint lits (s : string) : regex :=
  match s with
  | EmptyString => Eps
  | String a EmptyString => Charset (Chars.lit a)
  | String a s' => Seq (Charset (Chars.lit a)) (lits s')
  end.

Fixpoint seqs (rs : list regex) : regex :=
  match rs with
  | [] => Eps
  | [r] => r
  | r :: rs' => Seq r (seqs rs')
  end.

Definition star (r : regex) : regex := Repeat 0 None r.
Definition plus (r : regex) : regex := Repeat 1 None r.
Definition opt (r : regex) : regex := Repeat 0 (Some 1) r.
Definition times (n : nat) (r : regex) : regex := Repeat n (Some n) r.
Definition at_least (n : nat) (r : regex) : regex := Repeat n None r.

Fixpoint ngroups (r : regex) : nat :=
  match r with
  | Eps | Charset _ => 0
  | Seq r1 r2 | Alt r1 r2 => ngroups r1 + ngroups r2
  | Repeat _ _ r' => ngroups r'
  | Group r' => S (ngroups r')
  end.

(** The text consumed between two suffixes of the subject. *)
Definition consumed (s s' : string) : string :=
  substring 0 (String.length s - String.length s') s.

(** Captures: group number (from 0 here, from 1 in Python) to the text the
    group matched last, if it took part in the match. *)
Definition captures := list (option string).

Fixpoint set_capture (i : nat) (v : string) (caps : captures) : captures :=
  match i, caps with
  | 0, [] => [Some v]
  | 0, _ :: caps' => Some v :: caps'
  | S i', [] => None :: set_capture i' v []
  | S i', c :: caps' => c :: set_capture i' v caps'
  end.

Definition outcome : Type := string * captures.
Definition cont : Type := string -> captures -> option outcome.

Definition may_repeat (hi : option nat) : bool :=
  match hi with Some 0 => false | _ => true end.

Definition pred_hi (hi : option nat) : option nat :=
  match hi with Some n => Some (pred n) | None => None end.

(** The loop of a greedy repetition [r{lo,hi}], with [body] the matcher of
    [r]: one more iteration is tried before stopping is, and an iteration
    has to consume a character.  [fuel] bounds the iterations; the length of
    the subject is enough, since each of them consumes. *)
Fixpoint repeat_loop (body : cont -> cont) (k : cont) (fuel lo : nat)
         (hi : option nat) (s : string) (caps : captures) {struct fuel}
  : option outcome :=
  let stop := if lo =? 0 then k s caps else None in
  match fuel with
  | 0 => stop
  | S fuel' =>
      if may_repeat hi then
        match body (fun s' caps' =>
                      if String.length s' <? String.length s
                      then repeat_loop body k fuel' (pred lo) (pred_hi hi) s' caps'
                      else None) s caps with
        | Some o => Some o
        | None => stop
        end
      else stop
  end.

(** [run ic r g k s caps]: match [r] at the head of [s], then go on with
    [k]; [g] is the number of groups opened to the left of [r].  The first
    success in Python's order of alternatives is returned. *)
Fixpoint run (ic : bool) (r : regex) (g : nat) (k : cont)
         (s : string) (caps : captures) {struct r} : option outcome :=
  match r with
  | Eps => k s caps
  | Charset p =>
      match s with
      | String c s' => if Chars.test ic p c then k s' caps else None
      | EmptyString => None
      end
  | Seq r1 r2 =>
      run ic r1 g (fun s' caps' => run ic r2 (g + ngroups r1) k s' caps') s caps
  | Alt r1 r2 =>
      match run ic r1 g k s caps with
      | Some o => Some o
      | None => run ic r2 (g + ngroups r1) k s caps
      end
  | Repeat lo hi r' =>
      repeat_loop (fun k' => run ic r' g k') k (String.length s) lo hi s caps
  | Group r' =>
      run ic r' (S g) (fun s' caps' => k s' (set_capture g (consumed s s') caps')) s caps
  end.

(** One match attempt at the head of [s].  With [must_advance] an empty
    match is refused (the engine backtracks past it). *)
Definition match_here (ic : bool) (r : regex) (must_advance : bool) (s : string)
  : option outcome :=
  run ic r 0
      (fun s' caps' =>
         if must_advance && (String.length s' =? String.length s)
         then None else Some (s', caps'))
      s [].

Definition group_text (caps : captures) (i : nat) : string :=
  match nth_error caps i with
  | Some (Some v) => v
  | _ => ""
  end.

(** What [findall] reports for one match: the whole match when the pattern
    has no group, the group when it has one, a tuple of the groups
    otherwise; a group that took no part reads as the empty string. *)
Definition findall_item (r : regex) (s : string) (o : outcome) : pyobj :=
  match ngroups r with
  | 0 => PyStr (consumed s (fst o))
  | 1 => PyStr (group_text (snd o) 0)
  | n => PyTuple (map (group_text (snd o)) (seq 0 n))
  end.

(** [scan] walks the subject; [skip] counts the characters still covered by
    the previous match. *)
Fixpoint scan {A : Type} (hit : string -> outcome -> A) (miss : ascii -> list A)
         (ic : bool) (r : regex) (skip : nat) (s : string) : list A :=
  match skip, s with
  | S skip', String c s' => scan hit miss ic r skip' s'
  | S _, EmptyString => []
  | 0, _ =>
      let next (n : nat) :=
        match s with
        | String c s' =>
            match n with
            | 0 => miss c ++ scan hit miss ic r 0 s'
            | S n' => scan hit miss ic r n' s'
            end
        | EmptyString => []
        end in
      match match_here ic r false s with
      | None => next 0
      | Some o =>
          let n := String.length s - String.length (fst o) in
          match n with
          | S _ => hit s o :: next n
          | 0 =>
              (* an empty match: look once more here for one that advances *)
              hit s o ::
              match match_here ic r true s with
              | Some o' => hit s o' :: next (String.length s - String.length (fst o'))
              | None => next 0
              end
          end
      end
  end.

(** [re.findall(pattern, text, flags)] *)
Definition findall (ic : bool) (r : regex) (text : string) : list pyobj :=
  scan (findall_item r) (fun _ => []) ic r 0 text.

(** [re.sub(pattern, repl, text)] for a replacement without group
    references. *)
Definition sub (r : regex) (repl : string) (text : string) : string :=
  String.concat ""
    (scan (fun _ _ => repl) (fun c => [String c EmptyString]) false r 0 text).

(** [re.search(pattern, text, flags)]: the leftmost match, as the pair of
    the whole match and its captures. *)
Fixpoint search (ic : bool) (r : regex) (s : string) : option (string * captures) :=
  match match_here ic r false s with
  | Some o => Some (consumed s (fst o), snd o)
  | None =>
      match s with
      | String _ s' => search ic r s'
      | EmptyString => None
      end
  end.

End Re.

(** ** Python built-ins used by the extractors *)

Module Py.

(** [s.startswith(p)] *)
Definition startswith (s p : string) : bool := String.prefix p s.

(** [s[n:]] *)
Definition slice_from (n : nat) (s : string) : string :=
  substring n (String.length s - n) s.

(** [''.join(t)] *)
Definition join (t : list string) : string := String.concat "" t.

(** [x in l] *)
Definition mem (x : string) (l : list string) : bool :=
  existsb (String.eqb x) l.

(** [list(set(l))]: the elements of [l], each once, in an order that the
    hash table chooses.  No order is fixed here; an implementation of the
    interface picks one. *)
Class SetOrder : Type := {
  list_of_set : list string -> list string;
  list_of_set_NoDup : forall l, NoDup (list_of_set l);
  list_of_set_In : forall l x, In x (list_of_set l) <-> In x l
}.

(** [str(n)] for an integer. *)
Definition str_of_int (n : Z) : string := NilZero.string_of_int (Z.to_int n).

End Py.

(** ** Pattern extractors (main.py, lines 49-93) *)

Import Re.

Definition country_prefix : regex := opt (Group (Alt (lits "+34") (lits "0034"))).
Definition ws : regex := star (Charset Chars.space).
Definition d2 : regex := times 2 (Charset Chars.digit).

(** [(\+34|0034)?\s*[6789]\d{2}\s*\d{2}\s*\d{2}\s*\d{2}] *)
Definition pattern_movil : regex :=
  seqs [country_prefix; ws; Charset (Chars.one_of "6789"); d2; ws; d2; ws; d2; ws; d2].

(** [(\+34|0034)?\s*9\d{2}\s*\d{2}\s*\d{2}\s*\d{2}] *)
Definition pattern_fijo : regex :=
  seqs [country_prefix; ws; Charset (Chars.lit "9"); d2; ws; d2; ws; d2; ws; d2].

(** [[6789]\d{8}] *)
Definition pattern_nueve : regex :=
  Seq (Charset (Chars.one_of "6789")) (times 8 (Charset Chars.digit)).

Definition patterns : list regex := [pattern_movil; pattern_fijo; pattern_nueve].

(** [[\s\-\.]] *)
Definition separator (c : ascii) : bool :=
  Chars.space c || Chars.lit "-" c || Chars.lit "." c.

Definition separators : regex := Charset separator.

(** Lines 69-80: one raw match turned into a candidate number. *)
Definition normalize (phone : pyobj) : string :=
  let phone := match phone with
               | PyTuple t => Py.join t
               | PyStr s => s
               end in
  let phone := Re.sub separators "" phone in
  if negb (Py.startswith phone "+") then
    if Py.startswith phone "0034" then "+34" ++ Py.slice_from 4 phone
    else if Py.startswith phone "34" then "+" ++ phone
    else "+34" ++ phone
  else phone.

(** Lines 68-82: the body of the cleaning loop, on the list built so far. *)
Definition clean_step (cleaned_phones : list string) (phone : pyobj) : list string :=
  let phone := normalize phone in
  if negb (Py.mem phone cleaned_phones) && (11 <=? String.length phone)
  then cleaned_phones ++ [phone]
  else cleaned_phones.

(** Lines 61-64: the raw matches of the three patterns, in pattern order. *)
Definition raw_matches (text : string) : list pyobj :=
  flat_map (fun pattern => Re.findall true pattern text) patterns.

(** The argument is [None] or a string. *)
Definition extract_phone_from_text (text : option string) : list string :=
  match text with
  | None | Some EmptyString => []
  | Some text => fold_left clean_step (raw_matches text) []
  end.

(** [[a-zA-Z0-9._%+-]+@[a-zA-Z0-9.-]+\.[a-zA-Z]{2,}] *)
Definition pattern_email : regex :=
  seqs [plus (Charset (fun c => Chars.alpha c || Chars.digit c || Chars.one_of "._%+-" c));
        Charset (Chars.lit "@");
        plus (Charset (fun c => Chars.alpha c || Chars.digit c || Chars.one_of ".-" c));
        Charset (Chars.lit ".");
        at_least 2 (Charset Chars.alpha)].

Definition as_str (o : pyobj) : string :=
  match o with
  | PyStr s => s
  | PyTuple t => Py.join t
  end.

Definition email_matches (text : string) : list string :=
  map as_str (Re.findall true pattern_email text).

Definition extract_email_from_text `{Py.SetOrder} (text : option string) : list string :=
  match text with
  | None | Some EmptyString => []
  | Some text => Py.list_of_set (email_matches text)
  end.

(** ** The world of the fetchers *)

(** A raised [Exception]; [str(e)] is its message. *)
Record exn : Type := Exception { exn_message : string }.

Inductive result (A : Type) : Type :=
| Ret (a : A)
| Raise (e : exn).
Arguments Ret {A} a.
Arguments Raise {A} e.

Inductive level : Type := INFO | ERROR.

(** What a call can change: the log, the clock (in seconds) and the
    requests: the URLs the fetchers have tried to open so far, oldest first,
    whether the attempt reached the network or failed before. *)
Record world : Type := World {
  log : list (level * string);
  clock : Z;
  requests : list string
}.

(** [a.item-link]: its [href] attribute, if it has one, and its stripped text. *)
Record anchor : Type := Anchor {
  href : option string;
  anchor_text : string
}.

(** An [article.item] of a results page, through the selectors of the
    listing fetcher: the stripped text of the first
    [.item-extra-info, .item-subtitle], the title link, the stripped text of
    the price and the text of the location. *)
Record article : Type := Article {
  extra_info : option string;
  title_el : option anchor;
  price_el : option string;
  location_el : option string
}.

(** A parsed page, through the queries of main.py: [get_text()], the texts
    of the elements selected on line 115, and [find_all("article", "item")]. *)
Record soup : Type := Soup {
  page_text : string;
  contact_elements : list string;
  articles : list article
}.

(** The libraries and the network.  [urlopen_read w url] stands for lines
    98-100: the request with [HEADERS], the read and the decoding, answered
    by the world as it is at the time of the call.  [urljoin] raises
    [ValueError] on a reference it cannot split, such as ["//["]. *)
Class Site : Type := {
  urlopen_read : world -> string -> result string;
  BeautifulSoup : string -> result soup;
  urljoin : string -> string -> result string;
  isoformat : Z -> string
}.

(** State and exceptions. *)
Definition M (A : Type) : Type := world -> result A * world.

Definition ret {A : Type} (a : A) : M A := fun w => (Ret a, w).

Definition raise {A : Type} (e : exn) : M A := fun w => (Raise e, w).

Definition bind {A B : Type} (m : M A) (f : A -> M B) : M B :=
  fun w =>
    match m w with
    | (Ret a, w') => f a w'
    | (Raise e, w') => (Raise e, w')
    end.

(** [try: body except Exception as e: handler e] *)
Definition try_except {A : Type} (body : M A) (handler : exn -> M A) : M A :=
  fun w =>
    match body w with
    | (Ret a, w') => (Ret a, w')
    | (Raise e, w') => handler e w'
    end.

Declare Scope py_scope.
Delimit Scope py_scope with py.
Notation "x <- c1 ;; c2" := (bind c1 (fun x => c2))
  (at level 61, c1 at next level, right associativity) : py_scope.
Notation "c1 ;;; c2" := (bind c1 (fun _ => c2))
  (at level 61, right associativity) : py_scope.
Open Scope py_scope.

Definition lift {A : Type} (r : result A) : M A := fun w => (r, w).

Definition logger (lv : level) (msg : string) : M unit :=
  fun w => (Ret tt, World (log w ++ [(lv, msg)]) (clock w) (requests w)).

Definition sleep (secs : Z) : M unit :=
  fun w => (Ret tt, World (log w) (clock w + secs)%Z (requests w)).

Definition now : M Z := fun w => (Ret (clock w), w).

(** One attempt to open [url]; the attempt is recorded, its outcome is the
    world's. *)
Definition http_get `{Site} (url : string) : M string :=
  fun w => (urlopen_read w url, World (log w) (clock w) (requests w ++ [url])).

(** ** Detail fetcher (main.py, lines 95-129) *)

Record contacts : Type := Contacts {
  phones : list string;
  emails : list string
}.

Definition no_contacts : contacts := Contacts [] [].

(** The record of one listing (lines 183-192); [id] is [None] when the URL
    has no [/inmueble/<digits>/] segment. *)
Module Listing.
Record t : Type := Make {
  id : option string;
  titulo : string;
  precio : string;
  ubicacion : string;
  url : string;
  telefonos : list string;
  emails : list string;
  fecha_scraping : string
}.
End Listing.
Definition listing : Type := Listing.t.

Section Fetchers.

Context `{Py.SetOrder} `{Site}.

Definition scrape_property_detail (property_url : string) : M contacts :=
  try_except
    (html <- http_get property_url ;;
     soup <- lift (BeautifulSoup html) ;;
     let text := page_text soup in
     let contacts := Contacts (extract_phone_from_text (Some text))
                              (extract_email_from_text (Some text)) in
     let contacts :=
       fold_left
         (fun contacts elem_text =>
            Contacts (phones contacts ++ extract_phone_from_text (Some elem_text))
                     (emails contacts ++ extract_email_from_text (Some elem_text)))
         (contact_elements soup) contacts in
     ret (Contacts (Py.list_of_set (phones contacts))
                   (Py.list_of_set (emails contacts))))
    (fun e =>
       logger ERROR ("Error scraping detail " ++ property_url ++ ": " ++ exn_message e) ;;;
       ret no_contacts).

(** ** Listing fetcher (main.py, lines 131-198) *)

Definition build_search_url (base_url : string) (page : Z) : string :=
  if (page <=? 1)%Z then base_url
  else base_url ++ "pagina-" ++ Py.str_of_int page ++ ".htm".

(** [agencia|inmobiliaria] *)
Definition pattern_agencia : regex := Alt (lits "agencia") (lits "inmobiliaria").

(** [/inmueble/(\d+)/] *)
Definition pattern_inmueble : regex :=
  seqs [lits "/inmueble/"; Group (plus (Charset Chars.digit)); Charset (Chars.lit "/")].

(** Lines 154-158: the listing is skipped as an agency's. *)
Definition is_agency (a : article) : bool :=
  match extra_info a with
  | Some extra_text =>
      match Re.search true pattern_agencia extra_text with
      | Some _ => true
      | None => false
      end
  | None => false
  end.

(** Lines 164-168; the exception is that of [urljoin]. *)
Definition resolve_url (a : article) : result (option string) :=
  let url_rel := match title_el a with
                 | Some t => href t
                 | None => None
                 end in
  match url_rel with
  | Some (String _ _ as u) =>
      if negb (Py.startswith u "http")
      then match urljoin "https://www.idealista.com" u with
           | Ret url_abs => Ret (Some url_abs)
           | Raise e => Raise e
           end
      else Ret url_rel
  | _ => Ret url_rel
  end.

(** Lines 174-175. *)
Definition property_id (url_abs : string) : option string :=
  match Re.search false pattern_inmueble url_abs with
  | Some (_, caps) => Some (Re.group_text caps 0)
  | None => None
  end.

Definition fmt_opt (o : option string) : string :=
  match o with
  | Some s => s
  | None => "None"
  end.

Definition nonempty {A : Type} (l : list A) : bool :=
  match l with
  | [] => false
  | _ :: _ => true
  end.

Definition or_empty (o : option string) : string :=
  match o with
  | Some s => s
  | None => ""
  end.

(** Lines 183-192. *)
Definition make_listing (a : article) (prop_id : option string) (url_abs : string)
           (c : contacts) (time : Z) : listing :=
  Listing.Make prop_id
          (match title_el a with Some t => anchor_text t | None => "" end)
          (or_empty (price_el a))
          (or_empty (location_el a))
          url_abs (phones c) (emails c) (isoformat time).

(** Lines 148-195: the loop over the articles, with the list built so far. *)
Fixpoint scrape_articles (max_properties : Z) (arts : list article)
         (properties : list listing) : M (list listing) :=
  match arts with
  | [] => ret properties
  | a :: rest =>
      if (Z.of_nat (length properties) >=? max_properties)%Z then ret properties
      else if is_agency a then scrape_articles max_properties rest properties
      else
        match resolve_url a with
        | Raise e => raise e
        | Ret None | Ret (Some EmptyString) =>
            scrape_articles max_properties rest properties
        | Ret (Some url_abs) =>
            let prop_id := property_id url_abs in
            logger INFO ("Scraping contacts for property " ++ fmt_opt prop_id ++ "...") ;;;
            c <- scrape_property_detail url_abs ;;
            properties <-
              (if nonempty (phones c) || nonempty (emails c)
               then time <- now ;;
                    ret (properties ++ [make_listing a prop_id url_abs c time])
               else ret properties) ;;
            sleep 2 ;;;
            scrape_articles max_properties rest properties
        end
  end.

Definition scrape_idealista_contacts (base_url : string) (page : Z)
           (max_properties : Z) : M (list listing) :=
  let search_url := build_search_url base_url page in
  html <- http_get search_url ;;
  soup <- lift (BeautifulSoup html) ;;
  properties <- scrape_articles max_properties (articles soup) [] ;;
  logger INFO ("Encontradas " ++ Py.str_of_int (Z.of_nat (length properties))
               ++ " propiedades con contactos") ;;;
  ret properties.

End Fetchers.

(** ** Reference notions the properties are stated with *)

(** A list without its repetitions, each element at its first occurrence. *)
Fixpoint first_seen (l : list string) : list string :=
  match l with
  | [] => []
  | x :: l' => x :: filter (fun y => negb (String.eqb y x)) (first_seen l')
  end.

(** The candidates of a text: every raw match, normalized, in match order. *)
Definition candidates (text : option string) : list string :=
  match text with
  | None => []
  | Some text => map normalize (raw_matches text)
  end.

Definition long_enough (phone : string) : bool := 11 <=? String.length phone.

(** [s.lower()] on code points below 256. *)
Fixpoint lower_str (s : string) : string :=
  match s with
  | EmptyString => EmptyString
  | String c s' => String (Chars.lower c) (lower_str s')
  end.

(** [s] starts with the literal [p], read under IGNORECASE. *)
Fixpoint iprefix (p s : string) : bool :=
  match p, s with
  | EmptyString, _ => true
  | String a p', String c s' => Chars.test true (Chars.lit a) c && iprefix p' s'
  | String _ _, EmptyString => false
  end.

Fixpoint drop (n : nat) (s : string) : string :=
  match n, s with
  | S n', String _ s' => drop n' s'
  | _, _ => s
  end.

(** The least number of characters a match of [r] consumes. *)
Fixpoint minlen (r : regex) : nat :=
  match r with
  | Eps => 0
  | Charset _ => 1
  | Seq r1 r2 => minlen r1 + minlen r2
  | Alt r1 r2 => Nat.min (minlen r1) (minlen r2)
  | Repeat lo _ r' => lo * minlen r'
  | Group r' => minlen r'
  end.

(** Nine digits in a row, the first of them 6, 7, 8 or 9. *)
Definition nine_digits (s : string) : bool :=
  (String.length s =? 9) && forallb Chars.digit (list_ascii_of_string s) &&
  match s with
  | String c _ => Chars.one_of "6789" c
  | EmptyString => false
  end.

(** [needle] occurs in [hay]. *)
Definition contains (needle hay : string) : Prop :=
  exists pre post : string, hay = (pre ++ needle ++ post)%string.

(** The subtitle marks an agency, in the words of the filtering rule. *)
Definition agency_text (extra_text : string) : Prop :=
  contains "agencia" (lower_str extra_text) \/
  contains "inmobiliaria" (lower_str extra_text).

Definition has_contact (r : listing) : Prop :=
  Listing.telefonos r <> [] \/ Listing.emails r <> [].

(** [r] is the record the loop builds for the article [a]. *)
Definition built_from `{Site} (a : article) (r : listing) : Prop :=
  exists (url_abs : string) (c : contacts) (time : Z),
    resolve_url a = Ret (Some url_abs) /\
    r = make_listing a (property_id url_abs) url_abs c time.

(** Worlds after a request, a log line, a pause. *)
Definition sent (w : world) (url : string) : world :=
  World (log w) (clock w) (requests w ++ [url]).

Definition logged (w : world) (lv : level) (msg : string) : world :=
  World (log w ++ [(lv, msg)]) (clock w) (requests w).

Definition slept (w : world) (secs : Z) : world :=
  World (log w) (clock w + secs)%Z (requests w).

(** The log lines of lines 128, 178 and 197. *)
Definition detail_error (property_url : string) (e : exn) : string :=
  ("Error scraping detail " ++ property_url ++ ": " ++ exn_message e)%string.

Definition announce (url_abs : string) : string :=
  ("Scraping contacts for property " ++ fmt_opt (property_id url_abs) ++ "...")%string.

Definition found_message (properties : list listing) : string :=
  ("Encontradas " ++ Py.str_of_int (Z.of_nat (length properties))
   ++ " propiedades con contactos")%string.

(** What one turn of the loop does to the list with an article it visits. *)
Definition visited `{Site} (a : article) (url_abs : string) (c : contacts) (w' : world)
           (properties : list listing) : list listing :=
  if nonempty (phones c) || nonempty (emails c)
  then properties ++ [make_listing a (property_id url_abs) url_abs c (clock w')]
  else properties.

(** Under IGNORECASE the literal [a] matches the characters whose lower case
    it is. *)
Definition folds (a : ascii) : Prop :=
  forall c : ascii, Chars.test true (Chars.lit a) c = Ascii.eqb a (Chars.lower c).

(** A string of nine characters. *)
Definition nine (c1 c2 c3 c4 c5 c6 c7 c8 c9 : ascii) : string :=
  String c1 (String c2 (String c3 (String c4 (String c5
    (String c6 (String c7 (String c8 (String c9 EmptyString)))))))).

(** ** A small site to run the fetchers on *)

Module Demo.

(** One choice of [list(set(l))]: first occurrences, in order. *)
Definition ordered_set (l : list string) : list string := first_seen l.

Definition agency : article :=
  Article (Some "Inmobiliaria XYZ")
          (Some (Anchor (Some "/inmueble/1/") "Piso de agencia"))
          (Some "100.000") (Some "Centro").

Definition owner : article :=
  Article None
          (Some (Anchor (Some "/inmueble/2/") "Piso en venta"))
          (Some "200.000") (Some "Delicias").

Definition silent : article :=
  Article (Some "Particular")
          (Some (Anchor (Some "/inmueble/3/") "Chalet"))
          None None.

Definition unlinked : article :=
  Article None (Some (Anchor None "Sin enlace")) None None.

Definition broken : article :=
  Article None (Some (Anchor (Some "https://www.idealista.com/inmueble/4/") "Atico"))
          None None.

Definition search_soup : soup :=
  Soup "resultados" [] [agency; owner; silent; unlinked; broken].

Definition pages (url : string) : result string :=
  if String.eqb url "https://x/y/" then Ret "search"
  else if String.eqb url "https://www.idealista.com/inmueble/1/" then Ret "detail1"
  else if String.eqb url "https://www.idealista.com/inmueble/2/" then Ret "detail2"
  else if String.eqb url "https://www.idealista.com/inmueble/3/" then Ret "detail3"
  else if String.eqb url "https://www.idealista.com/inmueble/4/" then Ret "detail4"
  else Raise (Exception "HTTP Error 404: Not Found").

Definition parse (html : string) : result soup :=
  if String.eqb html "search" then Ret search_soup
  else if String.eqb html "detail1" then
    Ret (Soup "Llame al 0034612345678" [] [])
  else if String.eqb html "detail2" then
    Ret (Soup "Contact: a.b@example.co, tel 612345678" ["612345678"; "a.b@example.co"] [])
  else if String.eqb html "detail3" then
    Ret (Soup "Sin datos de contacto" ["612 34 56 78"] [])
  else Raise (Exception "maximum recursion depth exceeded").

Definition start : world := World [] 0 [].

End Demo.

(** ** API layer (main.py, lines 28-40 and 200-243) *)

(** The table of cities, in the order of the source; [keys()] lists a
    dictionary in that order. *)
Definition CIUDADES_ESPANA : list (string * string) :=
  [("madrid", "https://www.idealista.com/venta-viviendas/madrid-madrid/con-particulares/");
   ("barcelona", "https://www.idealista.com/venta-viviendas/barcelona-barcelona/con-particulares/");
   ("valladolid", "https://www.idealista.com/venta-viviendas/valladolid-valladolid/con-particulares/");
   ("valencia", "https://www.idealista.com/venta-viviendas/valencia-valencia/con-particulares/");
   ("sevilla", "https://www.idealista.com/venta-viviendas/sevilla-sevilla/con-particulares/");
   ("zaragoza", "https://www.idealista.com/venta-viviendas/zaragoza-zaragoza/con-particulares/");
   ("malaga", "https://www.idealista.com/venta-viviendas/malaga-malaga/con-particulares/");
   ("murcia", "https://www.idealista.com/venta-viviendas/murcia-murcia/con-particulares/");
   ("bilbao", "https://www.idealista.com/venta-viviendas/bilbao/con-particulares/");
   ("alicante", "https://www.idealista.com/venta-viviendas/alicante-alicante/con-particulares/")].

(** The first value stored under a key: a dictionary's lookup, and
    [request.args.get] on the pairs of the query string. *)
Fixpoint lookup (d : list (string * string)) (key : string) : option string :=
  match d with
  | [] => None
  | (k0, v) :: d' => if String.eqb k0 key then Some v else lookup d' key
  end.

(** [d[key]]; the message of the [KeyError] is the key in quotes. *)
Definition dict_item (d : list (string * string)) (key : string) : result string :=
  match lookup d key with
  | Some v => Ret v
  | None => Raise (Exception ("'" ++ key ++ "'"))
  end.

(** [d.get(key, default)] *)
Definition dict_get (d : list (string * string)) (key default : string) : string :=
  match lookup d key with
  | Some v => v
  | None => default
  end.

(** What Python and Flask give the handlers: [int] on a string, which
    raises [ValueError] on what is no numeral, and [str.capitalize]. *)
Class Flask : Type := {
  int_of_str : string -> result Z;
  capitalize : string -> string
}.

(** [int(request.args.get(name, default))]: the default is an integer
    already. *)
Definition int_arg `{Flask} (args : list (string * string)) (name : string)
           (default : Z) : result Z :=
  match lookup args name with
  | Some v => int_of_str v
  | None => Ret default
  end.

(** The dictionaries given to [jsonify], by their keys. *)
Inductive json_body : Type :=
| HealthBody (status timestamp service : string)
| ContactsBody (timestamp location : string) (page count : Z) (data : list listing)
| ErrorBody (error timestamp : string)
| CitiesBody (cities : list string).

(** The [success] entry of a body; the health payload has none. *)
Definition success (b : json_body) : option bool :=
  match b with
  | HealthBody _ _ _ => None
  | ContactsBody _ _ _ _ _ | CitiesBody _ => Some true
  | ErrorBody _ _ => Some false
  end.

Definition response : Type := json_body * Z.

Section Api.

Context `{Py.SetOrder} `{Site} `{Flask}.

(** Lines 200-206. *)
Definition health_check : M response :=
  time <- now ;;
  ret (HealthBody "ok" (isoformat time) "Idealista Contacts Scraper API", 200%Z).

(** Lines 208-236; [args] are the pairs of the query string. *)
Definition get_contacts (city : string) (args : list (string * string)) : M response :=
  try_except
    (let city := lower_str city in
     default <- lift (dict_item CIUDADES_ESPANA "madrid") ;;
     let base_url := dict_get CIUDADES_ESPANA city default in
     let city_name := capitalize city in
     page <- lift (int_arg args "page" 1) ;;
     max_properties <- lift (int_arg args "limit" 10) ;;
     logger INFO ("Scraping contacts from " ++ city_name ++ ", page "
                  ++ Py.str_of_int page) ;;;
     data <- scrape_idealista_contacts base_url page max_properties ;;
     time <- now ;;
     ret (ContactsBody (isoformat time) city_name page
                       (Z.of_nat (length data)) data, 200%Z))
    (fun e =>
       logger ERROR ("Error en endpoint: " ++ exn_message e) ;;;
       time <- now ;;
       ret (ErrorBody (exn_message e) (isoformat time), 500%Z)).

(** Lines 238-243. *)
Definition get_cities : response :=
  (CitiesBody (map fst CIUDADES_ESPANA), 200%Z).

End Api.

(** ** Matching as a relation *)

(** [n] matches in a row, from [s] to the suffix [s']. *)
Fixpoint iter (R : string -> string -> Prop) (n : nat) (s s' : string) : Prop :=
  match n with
  | 0 => s = s'
  | S n' => exists m : string, R s m /\ iter R n' m s'
  end.

Definition within (hi : option nat) (n : nat) : Prop :=
  match hi with
  | Some h => n <= h
  | None => True
  end.

(** [r] matches at the head of [s] and leaves [s']. *)
Fixpoint matches (ic : bool) (r : regex) (s s' : string) : Prop :=
  match r with
  | Eps => s = s'
  | Charset p => exists c : ascii, s = String c s' /\ Chars.test ic p c = true
  | Seq r1 r2 => exists m : string, matches ic r1 s m /\ matches ic r2 m s'
  | Alt r1 r2 => matches ic r1 s s' \/ matches ic r2 s s'
  | Repeat lo hi r' => exists n : nat, lo <= n /\ within hi n /\ iter (matches ic r') n s s'
  | Group r' => matches ic r' s s'
  end.

(** IGNORECASE adds nothing to the class [p] at [c]. *)
Definition keeps (p : ascii -> bool) (c : ascii) : bool :=
  implb (Chars.test true p c) (p c).

(** The captures the prefix group of the phone patterns can leave. *)
Definition prefix_captures (caps : captures) : Prop :=
  caps = [] \/ caps = [Some "+34"] \/ caps = [Some "0034"].

(** Every character of [s] passes [p]. *)
Definition all_chars (p : ascii -> bool) (s : string) : Prop :=
  forallb p (list_ascii_of_string s) = true.

(** The shape [local@domain.tld] of the email pattern. *)
Definition email_shape (e : string) : Prop :=
  exists local domain tld : string,
    e = (local ++ "@" ++ domain ++ "." ++ tld)%string /\
    local <> "" /\ domain <> "" /\ 2 <= String.length tld /\
    all_chars (fun c => Chars.alpha c || Chars.digit c || Chars.one_of "._%+-" c) local /\
    all_chars (fun c => Chars.alpha c || Chars.digit c || Chars.one_of ".-" c) domain /\
    all_chars Chars.alpha tld.

(** [l1] is a prefix of [l2]. *)
Definition extends (l1 l2 : list string) : Prop :=
  exists more : list string, l2 = l1 ++ more.

(** The entry of Madrid, the fallback of the contacts endpoint. *)
Definition madrid_url : string :=
  "https://www.idealista.com/venta-viviendas/madrid-madrid/con-particulares/".

(** The URL the endpoint searches for a city. *)
Definition city_url (city : string) : string :=
  dict_get CIUDADES_ESPANA (lower_str city) madrid_url.

(** The cities the cities endpoint lists. *)
Definition listed_cities : list string :=
  match fst get_cities with
  | CitiesBody cities => cities
  | _ => []
  end.

(** The log lines of lines 218 and 231. *)
Definition endpoint_info `{Flask} (city : string) (page : Z) : string :=
  ("Scraping contacts from " ++ capitalize (lower_str city) ++ ", page "
   ++ Py.str_of_int page)%string.

Definition endpoint_error (e : exn) : string :=
  ("Error en endpoint: " ++ exn_message e)%string.

(** ** A small application to run the handlers on *)

Module DemoApi.

(** [int] on plain numerals only. *)
Definition to_int (s : string) : result Z :=
  match NilZero.int_of_string s with
  | Some d => Ret (Z.of_int d)
  | None => Raise (Exception ("invalid literal for int() with base 10: '" ++ s ++ "'"))
  end.

Definition title (s : string) : string :=
  match s with
  | EmptyString => EmptyString
  | String c s' => String (Chars.upper c) s'
  end.

(** The pages of [Demo], with its results page served for Madrid. *)
Definition pages (url : string) : result string :=
  if String.eqb url madrid_url then Ret "search" else Demo.pages url.

Definition start : world := World [] 100 [].

End DemoApi.

#[global] Instance demo_flask : Flask := Build_Flask DemoApi.to_int DemoApi.title.

Definition madrid_site : Site :=
  Build_Site (fun _ url => DemoApi.pages url) Demo.parse
             (fun base rel => Ret (base ++ rel)%string)
             (fun t => Py.str_of_int t).

(** ** A results page with a link that [urljoin] refuses *)

Module DemoJoin.

Definition join (base rel : string) : result string :=
  if String.eqb rel "//[" then Raise (Exception "Invalid IPv6 URL")
  else Ret (base ++ rel)%string.

Definition malformed : article :=
  Article None (Some (Anchor (Some "//[") "Enlace roto")) None None.

Definition parse (html : string) : result soup :=
  if String.eqb html "search"
  then Ret (Soup "resultados" [] [Demo.owner; malformed; Demo.silent])
  else Demo.parse html.

End DemoJoin.

Definition broken_link_site : Site :=
  Build_Site (fun _ url => Demo.pages url) DemoJoin.parse DemoJoin.join
             (fun t => Py.str_of_int t).

(** The detail pages the loop asks for when nothing stops it: those of the
    articles that are no agency's and have a link, in page order. *)
Definition detail_candidates `{Site} (arts : list article) : list string :=
  flat_map (fun a =>
              if is_agency a then []
              else match resolve_url a with
                   | Ret (Some (String _ _ as url_abs)) => [url_abs]
                   | _ => []
                   end) arts.

(** ** Lists without repetitions *)

Lemma mem_In (x : string) (l : list string) : Py.mem x l = true <-> In x l.
Proof.
  unfold Py.mem. rewrite existsb_exists. split.
  - intros [y [Hy E]]. apply String.eqb_eq in E. now subst.
  - intros Hx. exists x. split; [assumption | apply String.eqb_refl].
Qed.

Lemma mem_app (x : string) (l1 l2 : list string) :
  Py.mem x (l1 ++ l2) = Py.mem x l1 || Py.mem x l2.
Proof. unfold Py.mem. apply existsb_app. Qed.

Lemma filter_filter {A : Type} (f g : A -> bool) (l : list A) :
  filter f (filter g l) = filter (fun x => g x && f x) l.
Proof.
  induction l as [| a l IH]; simpl; [reflexivity |].
  destruct (g a); simpl; [destruct (f a) |]; now rewrite IH.
Qed.

Lemma first_seen_In (l : list string) (x : string) : In x (first_seen l) <-> In x l.
Proof.
  induction l as [| a l IH]; simpl; [tauto |].
  rewrite filter_In, IH. split.
  - intros [E | [Hx _]]; auto.
  - intros [E | Hx]; [now left |].
    destruct (String.eqb_spec x a) as [E | N]; [left; congruence | right; auto].
Qed.

Lemma first_seen_NoDup (l : list string) : NoDup (first_seen l).
Proof.
  induction l as [| a l IH]; simpl; constructor.
  - rewrite filter_In. intros [_ N]. now rewrite String.eqb_refl in N.
  - now apply NoDup_filter.
Qed.

#[global] Instance first_seen_order : Py.SetOrder :=
  Py.Build_SetOrder Demo.ordered_set first_seen_NoDup first_seen_In.

#[global] Instance demo_site : Site :=
  Build_Site (fun _ url => Demo.pages url) Demo.parse
             (fun base rel => Ret (base ++ rel)%string)
             (fun t => Py.str_of_int t).

(** ** The cleaning loop of the phone extractor *)

Lemma clean_step_keep (acc : list string) (o : pyobj) :
  Py.mem (normalize o) acc = false -> long_enough (normalize o) = true ->
  clean_step acc o = acc ++ [normalize o].
Proof.
  intros Hm Hl. unfold clean_step. fold (long_enough (normalize o)).
  now rewrite Hm, Hl.
Qed.

Lemma clean_step_drop (acc : list string) (o : pyobj) :
  Py.mem (normalize o) acc = true \/ long_enough (normalize o) = false ->
  clean_step acc o = acc.
Proof.
  intros Hd. unfold clean_step. fold (long_enough (normalize o)).
  destruct Hd as [-> | ->]; simpl; [reflexivity | now rewrite andb_false_r].
Qed.

(** The loop, started on [acc], adds the long candidates that are not in
    [acc] yet, each once, at its first occurrence. *)
Lemma clean_loop_first_seen (raw : list pyobj) (acc : list string) :
  fold_left clean_step raw acc =
  acc ++ filter (fun p => negb (Py.mem p acc))
                (first_seen (filter long_enough (map normalize raw))).
Proof.
  revert acc. induction raw as [| o raw IH]; intros acc; simpl.
  - now rewrite app_nil_r.
  - destruct (long_enough (normalize o)) eqn:Hl.
    + destruct (Py.mem (normalize o) acc) eqn:Hm.
      * rewrite clean_step_drop by (now left). rewrite IH. simpl.
        rewrite Hm. simpl. rewrite filter_filter. f_equal.
        apply filter_ext_in. intros p _.
        destruct (String.eqb_spec p (normalize o)) as [-> | N]; simpl.
        -- now rewrite Hm.
        -- reflexivity.
      * rewrite clean_step_keep by assumption. rewrite IH. simpl.
        rewrite Hm. simpl. rewrite <- app_assoc. simpl. do 2 f_equal.
        rewrite filter_filter. apply filter_ext. intros p.
        rewrite mem_app. unfold Py.mem at 2. simpl. rewrite orb_false_r.
        rewrite negb_orb. apply andb_comm.
    + rewrite clean_step_drop by (now right). apply IH.
Qed.

Lemma extract_phone_first_seen (text : option string) :
  extract_phone_from_text text =
  first_seen (filter long_enough (candidates text)).
Proof.
  destruct text as [[| c s] |]; try reflexivity.
  unfold extract_phone_from_text, candidates.
  rewrite clean_loop_first_seen. simpl app.
  generalize (first_seen (filter long_enough (map normalize (raw_matches (String c s))))).
  intros l. induction l as [| x l IH]; simpl; [reflexivity | now rewrite IH].
Qed.

(** ** Literal patterns under IGNORECASE *)

Lemma run_lits (p : string) (g : nat) (k : cont) (s : string) (caps : captures) :
  run true (lits p) g k s caps =
  if iprefix p s then k (drop (String.length p) s) caps else None.
Proof.
  revert g s. induction p as [| a p IH]; intros g s; [reflexivity |].
  destruct p as [| b p].
  - destruct s as [| c s]; simpl; [reflexivity |].
    rewrite andb_true_r.
    destruct (Chars.lit a c || Chars.lit a (Chars.lower c) || Chars.lit a (Chars.upper c));
      reflexivity.
  - change (lits (String a (String b p)))
      with (Seq (Charset (Chars.lit a)) (lits (String b p))).
    destruct s as [| c s]; [reflexivity |].
    change (run true (Seq (Charset (Chars.lit a)) (lits (String b p))) g k (String c s) caps)
      with (if Chars.test true (Chars.lit a) c
            then run true (lits (String b p)) (g + 0) k s caps else None).
    rewrite IH.
    change (iprefix (String a (String b p)) (String c s))
      with (Chars.test true (Chars.lit a) c && iprefix (String b p) s).
    destruct (Chars.test true (Chars.lit a) c); reflexivity.
Qed.

Lemma search_found (ic : bool) (r : regex) (s : string) :
  (exists m, Re.search ic r s = Some m) <->
  exists pre post : string,
    s = (pre ++ post)%string /\ exists o, Re.match_here ic r false post = Some o.
Proof.
  induction s as [| c s IH]; simpl.
  - destruct (match_here ic r false "") as [o |] eqn:E.
    + split; [intros _; exists "", ""; eauto | eauto].
    + split; [intros [m [=]] |].
      intros (pre & post & Hs & o & Ho).
      destruct pre; [| discriminate]. simpl in Hs. subst post. congruence.
  - destruct (match_here ic r false (String c s)) as [o |] eqn:E.
    + split; [intros _; exists "", (String c s); eauto | eauto].
    + rewrite IH. split.
      * intros (pre & post & Hs & Ho). exists (String c pre), post.
        split; [simpl; now f_equal | assumption].
      * intros (pre & post & Hs & o & Ho).
        destruct pre as [| c' pre]; simpl in Hs.
        -- subst post. congruence.
        -- injection Hs as -> ->. exists pre, post. eauto.
Qed.

Lemma match_agencia (s : string) :
  (exists o, Re.match_here true pattern_agencia false s = Some o) <->
  iprefix "agencia" s = true \/ iprefix "inmobiliaria" s = true.
Proof.
  unfold Re.match_here, pattern_agencia.
  change (run true (Alt (lits "agencia") (lits "inmobiliaria")) 0 ?k s [])
    with (match run true (lits "agencia") 0 k s [] with
          | Some o => Some o
          | None => run true (lits "inmobiliaria") (0 + ngroups (lits "agencia")) k s []
          end).
  rewrite !run_lits. simpl andb.
  destruct (iprefix "agencia" s); [split; eauto |].
  destruct (iprefix "inmobiliaria" s); [split; eauto |].
  split; [intros [o [=]] | intros [[=] | [=]]].
Qed.

Lemma agency_letters_fold (c : ascii) :
  forallb (fun a => Bool.eqb (Chars.test true (Chars.lit a) c)
                             (Ascii.eqb a (Chars.lower c)))
          (list_ascii_of_string "agencimoblr") = true.
Proof. destruct c as [[] [] [] [] [] [] [] []]; vm_compute; reflexivity. Qed.

Lemma agency_needles_fold (p : string) :
  p = "agencia" \/ p = "inmobiliaria" -> Forall folds (list_ascii_of_string p).
Proof.
  assert (L : Forall folds (list_ascii_of_string "agencimoblr")).
  { apply Forall_forall. intros a Ha c.
    pose proof (agency_letters_fold c) as F.
    rewrite forallb_forall in F. apply Bool.eqb_prop. now apply F. }
  rewrite Forall_forall in L.
  intros [-> | ->]; apply Forall_forall; intros a Ha; apply L;
    simpl in Ha |- *; intuition.
Qed.

Lemma iprefix_lower (p s : string) :
  Forall folds (list_ascii_of_string p) ->
  iprefix p s = true <-> exists post : string, lower_str s = (p ++ post)%string.
Proof.
  revert s. induction p as [| a p IH]; intros s Hp.
  - simpl. split; eauto.
  - simpl in Hp. inversion Hp as [| ? ? Ha Hp']; subst.
    destruct s as [| c s]; cbn [iprefix lower_str append].
    + split; [discriminate | intros [post [=]]].
    + rewrite andb_true_iff, (IH s Hp'), Ha. split.
      * intros [E [post Hpost]]. apply Ascii.eqb_eq in E.
        exists post. now rewrite Hpost, E.
      * intros [post [= E Hpost]]. split; [now apply Ascii.eqb_eq | eauto].
Qed.

Lemma lower_str_app (s1 s2 : string) :
  lower_str (s1 ++ s2) = (lower_str s1 ++ lower_str s2)%string.
Proof. induction s1 as [| c s1 IH]; simpl; [reflexivity | now rewrite IH]. Qed.

Lemma lower_str_split (t x z : string) :
  lower_str t = (x ++ z)%string ->
  exists t1 t2 : string, t = (t1 ++ t2)%string /\ lower_str t1 = x /\ lower_str t2 = z.
Proof.
  revert t. induction x as [| a x IH]; intros t E; simpl in E.
  - exists "", t. auto.
  - destruct t as [| c t]; [discriminate |]. simpl in E. injection E as Ea Et.
    destruct (IH t Et) as (t1 & t2 & -> & H1 & H2).
    exists (String c t1), t2. simpl. rewrite H1, Ea. auto.
Qed.

Lemma contains_lower (needle t : string) :
  Forall folds (list_ascii_of_string needle) ->
  contains needle (lower_str t) <->
  exists pre post : string, t = (pre ++ post)%string /\ iprefix needle post = true.
Proof.
  intros Hn. unfold contains. split.
  - intros (x & y & E). apply lower_str_split in E.
    destruct E as (t1 & t2 & -> & _ & H2).
    exists t1, t2. split; [reflexivity |]. apply iprefix_lower; eauto.
  - intros (pre & post & -> & Hp). apply iprefix_lower in Hp; [| assumption].
    destruct Hp as [y Hy]. exists (lower_str pre), y.
    now rewrite lower_str_app, Hy.
Qed.

(** The agency test of the loop says what the filtering rule says. *)
Lemma is_agency_spec (a : article) :
  is_agency a = true <->
  exists extra_text : string, extra_info a = Some extra_text /\ agency_text extra_text.
Proof.
  unfold is_agency, agency_text.
  destruct (extra_info a) as [t |]; [| split; [discriminate | intros (t & [=] & _)]].
  assert (S : (exists m, Re.search true pattern_agencia t = Some m) <->
              contains "agencia" (lower_str t) \/ contains "inmobiliaria" (lower_str t)).
  { rewrite search_found, !contains_lower by (apply agency_needles_fold; auto).
    split.
    - intros (pre & post & E & Ho). apply match_agencia in Ho.
      destruct Ho; [left | right]; eauto.
    - intros [(pre & post & E & Hp) | (pre & post & E & Hp)];
        exists pre, post; (split; [assumption | apply match_agencia; auto]). }
  destruct (Re.search true pattern_agencia t) as [m |].
  - split; [intros _ | reflexivity]. exists t. split; [reflexivity |].
    apply S. eauto.
  - split; [discriminate |]. intros (t' & [= <-] & Ht).
    apply S in Ht. now destruct Ht.
Qed.

(** ** The matcher on single-character repetitions *)

Lemma run_charset_hit (ic : bool) (p : ascii -> bool) (g : nat) (k : cont)
      (c : ascii) (s : string) (caps : captures) :
  Chars.test ic p c = true -> run ic (Charset p) g k (String c s) caps = k s caps.
Proof. intros E. cbn [run]. now rewrite E. Qed.

Lemma run_charset_miss (ic : bool) (p : ascii -> bool) (g : nat) (k : cont)
      (s : string) (caps : captures) :
  match s with
  | String c _ => Chars.test ic p c = false
  | EmptyString => True
  end ->
  run ic (Charset p) g k s caps = None.
Proof. destruct s as [| c s]; cbn [run]; [reflexivity | now intros ->]. Qed.

(** One turn of a greedy repetition of a character class. *)
Lemma run_repeat_charset (ic : bool) (p : ascii -> bool) (lo : nat) (hi : option nat)
      (g : nat) (k : cont) (s : string) (caps : captures) :
  run ic (Repeat lo hi (Charset p)) g k s caps =
  let stop := if lo =? 0 then k s caps else None in
  match s with
  | String c s' =>
      if may_repeat hi && Chars.test ic p c then
        match run ic (Repeat (pred lo) (pred_hi hi) (Charset p)) g k s' caps with
        | Some o => Some o
        | None => stop
        end
      else stop
  | EmptyString => stop
  end.
Proof.
  destruct s as [| c s]; [reflexivity |].
  cbn [run String.length repeat_loop].
  destruct (may_repeat hi); [| reflexivity]. cbn [andb].
  destruct (Chars.test ic p c); [| reflexivity].
  replace (String.length s <? S (String.length s)) with true
    by (symmetry; apply Nat.ltb_lt; lia).
  reflexivity.
Qed.

Lemma run_star_stop (ic : bool) (p : ascii -> bool) (g : nat) (k : cont)
      (s : string) (caps : captures) :
  match s with
  | String c _ => Chars.test ic p c = false
  | EmptyString => True
  end ->
  run ic (star (Charset p)) g k s caps = k s caps.
Proof.
  intros E. unfold star. rewrite run_repeat_charset.
  destruct s as [| c s]; [reflexivity |]. now rewrite E.
Qed.

Lemma run_times_0 (ic : bool) (p : ascii -> bool) (g : nat) (k : cont)
      (s : string) (caps : captures) :
  run ic (Repeat 0 (Some 0) (Charset p)) g k s caps = k s caps.
Proof. rewrite run_repeat_charset. now destruct s. Qed.

(** [n] characters of the class, then the rest. *)
Lemma run_times (ic : bool) (p : ascii -> bool) (n : nat) (g : nat) (k : cont)
      (cs : list ascii) (s : string) (caps : captures) :
  length cs = n -> forallb (Chars.test ic p) cs = true ->
  run ic (times n (Charset p)) g k (string_of_list_ascii cs ++ s)%string caps = k s caps.
Proof.
  unfold times. revert cs. induction n as [| n IH]; intros cs Hlen Hall.
  - destruct cs; [| discriminate]. cbn [string_of_list_ascii append].
    now rewrite run_times_0.
  - destruct cs as [| c cs]; [discriminate |]. simpl in Hall, Hlen.
    apply andb_true_iff in Hall. destruct Hall as [Hc Hall].
    cbn [string_of_list_ascii append]. rewrite run_repeat_charset.
    cbn [may_repeat pred pred_hi andb Nat.eqb]. rewrite Hc.
    rewrite (IH cs) by (auto; lia). now destruct (k s caps).
Qed.

(** ** A match consumes at least [minlen] characters *)

Lemma run_min_length (ic : bool) (r : regex) :
  forall (g : nat) (k : cont) (s : string) (caps : captures) (o : outcome),
    run ic r g k s caps = Some o ->
    exists (s' : string) (caps' : captures),
      k s' caps' = Some o /\ minlen r + String.length s' <= String.length s.
Proof.
  induction r as [| p | r1 IH1 r2 IH2 | r1 IH1 r2 IH2 | lo hi r IH | r IH];
    intros g k s caps o E.
  - exists s, caps. split; [exact E | simpl; lia].
  - destruct s as [| c s]; cbn [run] in E; [discriminate |].
    destruct (Chars.test ic p c); [| discriminate].
    exists s, caps. split; [exact E | simpl; lia].
  - cbn [run] in E. apply IH1 in E. destruct E as (s1 & caps1 & E & L1).
    apply IH2 in E. destruct E as (s2 & caps2 & E & L2).
    exists s2, caps2. split; [exact E | simpl; lia].
  - cbn [run] in E. destruct (run ic r1 g k s caps) as [o1 |] eqn:E1.
    + injection E as <-. apply IH1 in E1. destruct E1 as (s1 & caps1 & E1 & L1).
      exists s1, caps1. split; [exact E1 | simpl; lia].
    + apply IH2 in E. destruct E as (s2 & caps2 & E & L2).
      exists s2, caps2. split; [exact E | simpl; lia].
  - cbn [run] in E. revert E. generalize (String.length s) at 1. intros fuel.
    revert lo hi s caps. induction fuel as [| fuel IHf]; intros lo hi s caps E.
    + cbn [repeat_loop] in E.
      destruct (Nat.eqb_spec lo 0) as [-> | _]; [| discriminate].
      exists s, caps. split; [exact E | simpl; lia].
    + cbn [repeat_loop] in E.
      assert (Stop : (if lo =? 0 then k s caps else None) = Some o ->
                     exists s' caps', k s' caps' = Some o /\
                       minlen (Repeat lo hi r) + String.length s' <= String.length s).
      { destruct (Nat.eqb_spec lo 0) as [-> | _]; [| discriminate].
        intros Ek. exists s, caps. split; [exact Ek | simpl; lia]. }
      destruct (may_repeat hi); [| now apply Stop].
      match type of E with
      | match ?X with _ => _ end = _ => destruct X as [o1 |] eqn:E1
      end; [| now apply Stop].
      injection E as <-. apply IH in E1. destruct E1 as (s1 & caps1 & E1 & L1).
      destruct (String.length s1 <? String.length s); [| discriminate].
      apply IHf in E1. destruct E1 as (s2 & caps2 & E2 & L2).
      exists s2, caps2. split; [exact E2 |]. simpl in L2 |- *.
      destruct lo as [| lo]; simpl in L2 |- *; lia.
  - cbn [run] in E. apply IH in E. destruct E as (s1 & caps1 & E & L1).
    exists s1, (set_capture g (consumed s s1) caps1).
    split; [exact E | simpl; lia].
Qed.

(** The matcher calls its continuation on suffixes that are no longer than
    the subject. *)
Lemma run_ext (ic : bool) (r : regex) :
  forall (g : nat) (k1 k2 : cont) (s : string) (caps : captures),
    (forall s' caps', String.length s' <= String.length s -> k1 s' caps' = k2 s' caps') ->
    run ic r g k1 s caps = run ic r g k2 s caps.
Proof.
  induction r as [| p | r1 IH1 r2 IH2 | r1 IH1 r2 IH2 | lo hi r IH | r IH];
    intros g k1 k2 s caps K.
  - cbn [run]. now apply K.
  - destruct s as [| c s]; cbn [run]; [reflexivity |].
    destruct (Chars.test ic p c); [| reflexivity]. apply K. simpl. lia.
  - cbn [run]. apply IH1. intros s1 caps1 L1. apply IH2.
    intros s2 caps2 L2. apply K. lia.
  - cbn [run]. rewrite (IH1 g k1 k2 s caps K), (IH2 (g + ngroups r1) k1 k2 s caps K).
    reflexivity.
  - cbn [run]. generalize (String.length s) at 1 2. intros fuel.
    revert lo hi s caps K.
    induction fuel as [| fuel IHf]; intros lo hi s caps K; cbn [repeat_loop];
      rewrite (K s caps (le_n _)); [reflexivity |].
    destruct (may_repeat hi); [| reflexivity].
    erewrite IH; [reflexivity |]. intros s1 caps1 L1. cbn beta.
    destruct (String.length s1 <? String.length s); [| reflexivity].
    apply IHf. intros s2 caps2 L2. apply K. lia.
  - cbn [run]. apply IH. intros s1 caps1 L1. apply K. exact L1.
Qed.

(** The loop of a repetition does the same with any fuel from the length of
    the subject on: the bound is never what stops it. *)
Lemma repeat_fuel (ic : bool) (r : regex) (g : nat) (k : cont) (fuel1 : nat) :
  forall (fuel2 lo : nat) (hi : option nat) (s : string) (caps : captures),
    String.length s <= fuel1 -> String.length s <= fuel2 ->
    repeat_loop (run ic r g) k fuel1 lo hi s caps =
    repeat_loop (run ic r g) k fuel2 lo hi s caps.
Proof.
  assert (Done : forall (K : cont) (s : string) (caps : captures),
             String.length s = 0 ->
             run ic r g (fun s' caps' =>
                           if String.length s' <? String.length s
                           then K s' caps' else None) s caps = None).
  { intros K s caps L.
    match goal with |- ?X = None => destruct X as [o |] eqn:E end; [| reflexivity].
    apply run_min_length in E. destruct E as (s' & caps' & E & _).
    rewrite L in E. cbn in E. discriminate. }
  induction fuel1 as [| fuel1 IHf]; intros fuel2 lo hi s caps L1 L2.
  - destruct fuel2 as [| fuel2]; [reflexivity |]. cbn [repeat_loop].
    destruct (may_repeat hi); [| reflexivity]. rewrite Done by lia. reflexivity.
  - destruct fuel2 as [| fuel2]; cbn [repeat_loop].
    + destruct (may_repeat hi); [| reflexivity]. rewrite Done by lia. reflexivity.
    + destruct (may_repeat hi); [| reflexivity].
      erewrite run_ext; [reflexivity |]. intros s1 caps1 Ls. cbn beta.
      destruct (Nat.ltb_spec (String.length s1) (String.length s)); [| reflexivity].
      apply IHf; lia.
Qed.

Lemma repeat_fuel_enough (ic : bool) (r : regex) (lo : nat) (hi : option nat)
      (g : nat) (k : cont) (s : string) (caps : captures) (fuel : nat) :
  String.length s <= fuel ->
  repeat_loop (run ic r g) k fuel lo hi s caps = run ic (Repeat lo hi r) g k s caps.
Proof. intros L. cbn [run]. now apply repeat_fuel. Qed.

Lemma match_here_too_short (ic : bool) (r : regex) (b : bool) (s : string) :
  String.length s < minlen r -> Re.match_here ic r b s = None.
Proof.
  intros L. unfold Re.match_here.
  match goal with |- ?X = None => destruct X as [o |] eqn:E end; [| reflexivity].
  apply run_min_length in E. destruct E as (s' & caps' & _ & L'). lia.
Qed.

Lemma findall_too_short (ic : bool) (r : regex) (s : string) :
  String.length s < minlen r -> Re.findall ic r s = [].
Proof.
  unfold Re.findall. induction s as [| c s IH]; intros L; cbn [scan].
  - now rewrite match_here_too_short.
  - rewrite match_here_too_short by assumption. cbn [app].
    apply IH. simpl in L. lia.
Qed.

(** ** The phone patterns on nine digits in a row *)

Lemma digit_tests (c : ascii) :
  Chars.digit c = true ->
  Chars.test true Chars.digit c = true /\
  Chars.test true Chars.space c = false /\
  Chars.test false separator c = false.
Proof.
  intros D. destruct c as [[] [] [] [] [] [] [] []];
    vm_compute in D; try discriminate D; vm_compute; auto.
Qed.

Lemma lead_cases (c : ascii) :
  Chars.one_of "6789" c = true ->
  c = "6"%char \/ c = "7"%char \/ c = "8"%char \/ c = "9"%char.
Proof.
  unfold Chars.one_of. cbn [list_ascii_of_string existsb].
  rewrite !orb_true_iff, !Ascii.eqb_eq. intuition discriminate.
Qed.

Lemma run_ws_stop (g : nat) (k : cont) (s : string) (caps : captures) :
  match s with
  | String c _ => Chars.test true Chars.space c = false
  | EmptyString => True
  end ->
  run true ws g k s caps = k s caps.
Proof. apply run_star_stop. Qed.

Lemma run_d2 (g : nat) (k : cont) (c1 c2 : ascii) (s : string) (caps : captures) :
  Chars.test true Chars.digit c1 = true -> Chars.test true Chars.digit c2 = true ->
  run true d2 g k (String c1 (String c2 s)) caps = k s caps.
Proof.
  intros T1 T2. apply (run_times true Chars.digit 2 g k [c1; c2] s caps eq_refl).
  cbn [forallb]. now rewrite T1, T2.
Qed.

Lemma run_country_prefix_absent (g : nat) (k : cont) (s : string) (caps : captures) :
  match s with
  | String c _ =>
      Chars.test true (Chars.lit "+") c = false /\
      Chars.test true (Chars.lit "0") c = false
  | EmptyString => True
  end ->
  run true country_prefix g k s caps = k s caps.
Proof.
  intros T. unfold country_prefix, opt.
  destruct s as [| c s]; [reflexivity |]. destruct T as [T1 T2].
  cbn [run String.length repeat_loop may_repeat Nat.eqb].
  rewrite !run_lits. cbn [iprefix]. now rewrite T1, T2.
Qed.

Ltac run_step :=
  cbn beta iota;
  first
    [ rewrite run_country_prefix_absent by (cbn; auto)
    | rewrite run_ws_stop by (cbn; auto)
    | rewrite run_d2 by assumption
    | rewrite run_charset_hit by (assumption || reflexivity)
    | progress cbn [run seqs] ].

Lemma run_seq (ic : bool) (r1 r2 : regex) (g : nat) (k : cont)
      (s : string) (caps : captures) :
  run ic (Seq r1 r2) g k s caps =
  run ic r1 g (fun s' caps' => run ic r2 (g + ngroups r1) k s' caps') s caps.
Proof. reflexivity. Qed.

(** ** [findall] and [sub] on simple subjects *)

Lemma scan_skip_all {A : Type} (hit : string -> outcome -> A) (miss : ascii -> list A)
      (ic : bool) (r : regex) (s : string) :
  scan hit miss ic r (String.length s) s = scan hit miss ic r 0 EmptyString.
Proof. induction s as [| c s IH]; [reflexivity | exact IH]. Qed.

(** A pattern that matches the whole subject, and not the empty string, is
    found once. *)
Lemma findall_whole (ic : bool) (r : regex) (c : ascii) (s : string) (caps : captures) :
  Re.match_here ic r false (String c s) = Some (EmptyString, caps) ->
  Re.match_here ic r false EmptyString = None ->
  Re.findall ic r (String c s) = [findall_item r (String c s) (EmptyString, caps)].
Proof.
  intros E E0. unfold Re.findall. cbn [scan]. rewrite E.
  cbn [fst String.length Nat.sub]. f_equal.
  rewrite scan_skip_all. cbn [scan]. now rewrite E0.
Qed.

Lemma findall_after_miss (ic : bool) (r : regex) (c : ascii) (s : string) :
  Re.match_here ic r false (String c s) = None ->
  Re.findall ic r (String c s) = Re.findall ic r s.
Proof. intros E. unfold Re.findall. cbn [scan]. now rewrite E. Qed.

Lemma concat_cons_char (c : ascii) (l : list string) :
  String.concat "" (String c EmptyString :: l) = String c (String.concat "" l).
Proof. destruct l; reflexivity. Qed.

Lemma sub_separators_none (s : string) :
  forallb (fun c => negb (Chars.test false separator c)) (list_ascii_of_string s) = true ->
  Re.sub separators "" s = s.
Proof.
  unfold Re.sub. induction s as [| c s IH]; intros Hs; [reflexivity |].
  cbn [list_ascii_of_string forallb] in Hs. apply andb_true_iff in Hs.
  destruct Hs as [Hc Hs]. apply negb_true_iff in Hc.
  cbn [scan]. unfold Re.match_here at 1. unfold separators at 1.
  rewrite run_charset_miss by exact Hc.
  cbn [app]. rewrite concat_cons_char. now rewrite IH.
Qed.

(** ** Nine digits in a row are found by the third pattern *)

Section NineDigits.

Variables c1 c2 c3 c4 c5 c6 c7 c8 c9 : ascii.

Local Abbreviation s9 := (nine c1 c2 c3 c4 c5 c6 c7 c8 c9).

Hypothesis lead : Chars.one_of "6789" c1 = true.
Hypothesis digits : forallb Chars.digit [c2; c3; c4; c5; c6; c7; c8; c9] = true.

Ltac digit_facts :=
  let D := fresh "D" in
  pose proof digits as D;
  cbn [forallb] in D; rewrite !andb_true_iff in D;
  destruct D as (D2 & D3 & D4 & D5 & D6 & D7 & D8 & D9 & _);
  apply digit_tests in D2, D3, D4, D5, D6, D7, D8, D9;
  destruct D2 as (D2 & S2 & P2), D3 as (D3 & S3 & P3), D4 as (D4 & S4 & P4),
           D5 as (D5 & S5 & P5), D6 as (D6 & S6 & P6), D7 as (D7 & S7 & P7),
           D8 as (D8 & S8 & P8), D9 as (D9 & S9 & P9).

Lemma movil_nine : Re.match_here true pattern_movil false s9 = Some (EmptyString, []).
Proof.
  digit_facts. unfold Re.match_here, pattern_movil , nine.
  destruct (lead_cases c1 lead) as [-> | [-> | [-> | ->]]];
    repeat run_step; reflexivity.
Qed.

Lemma fijo_nine :
  Re.match_here true pattern_fijo false s9 =
  if Ascii.eqb c1 "9" then Some (EmptyString, []) else None.
Proof.
  digit_facts. unfold Re.match_here, pattern_fijo , nine.
  destruct (lead_cases c1 lead) as [-> | [-> | [-> | ->]]];
    repeat run_step; reflexivity.
Qed.

Lemma nueve_nine : Re.match_here true pattern_nueve false s9 = Some (EmptyString, []).
Proof.
  digit_facts. unfold Re.match_here, pattern_nueve , nine. rewrite run_seq.
  destruct (lead_cases c1 lead) as [-> | [-> | [-> | ->]]];
    (rewrite run_charset_hit by reflexivity);
    (rewrite (run_times true Chars.digit 8 _ _ [c2; c3; c4; c5; c6; c7; c8; c9]
                        EmptyString [] eq_refl)
      by (cbn [forallb]; now rewrite D2, D3, D4, D5, D6, D7, D8, D9));
    reflexivity.
Qed.

Lemma raw_matches_nine :
  raw_matches s9 =
  PyStr "" :: (if Ascii.eqb c1 "9" then [PyStr ""] else []) ++ [PyStr s9].
Proof.
  unfold raw_matches, patterns. cbn [flat_map].
  assert (M : Re.findall true pattern_movil s9 = [PyStr ""]).
  { unfold nine. rewrite (findall_whole _ _ _ _ []); [reflexivity | apply movil_nine |].
    reflexivity. }
  assert (F : Re.findall true pattern_fijo s9 =
              if Ascii.eqb c1 "9" then [PyStr ""] else []).
  { pose proof fijo_nine as E. unfold nine in *.
    destruct (Ascii.eqb c1 "9").
    - rewrite (findall_whole _ _ _ _ []); [reflexivity | exact E | reflexivity].
    - rewrite findall_after_miss by exact E.
      apply findall_too_short. cbn. lia. }
  assert (N : Re.findall true pattern_nueve s9 = [PyStr s9]).
  { unfold nine. rewrite (findall_whole _ _ _ _ []); [reflexivity | apply nueve_nine |].
    reflexivity. }
  rewrite M, F, N. now rewrite app_nil_r.
Qed.

Lemma normalize_nine : normalize (PyStr s9) = ("+34" ++ s9)%string.
Proof.
  digit_facts. unfold normalize.
  rewrite sub_separators_none.
  - unfold nine. destruct (lead_cases c1 lead) as [-> | [-> | [-> | ->]]]; reflexivity.
  - unfold nine. cbn [list_ascii_of_string forallb].
    rewrite P2, P3, P4, P5, P6, P7, P8, P9.
    destruct (lead_cases c1 lead) as [-> | [-> | [-> | ->]]]; reflexivity.
Qed.

Lemma extract_phone_nine : extract_phone_from_text (Some s9) = [("+34" ++ s9)%string].
Proof.
  change (extract_phone_from_text (Some s9))
    with (fold_left clean_step (raw_matches s9) []).
  rewrite raw_matches_nine.
  assert (Short : forall acc, clean_step acc (PyStr "") = acc).
  { intros acc. apply clean_step_drop. right. reflexivity. }
  assert (Long : clean_step [] (PyStr s9) = [("+34" ++ s9)%string]).
  { rewrite clean_step_keep; rewrite normalize_nine; reflexivity. }
  destruct (Ascii.eqb c1 "9"); cbn [app fold_left]; now rewrite !Short, Long.
Qed.

End NineDigits.

(** X1: on nine digits in a row, the first of them 6, 7, 8 or 9, the
    extractor returns the number, once, with the prefix ["+34"]. *)
Theorem extract_phone_nine_digits (s : string) :
  nine_digits s = true ->
  extract_phone_from_text (Some s) = [("+34" ++ s)%string].
Proof.
  unfold nine_digits. rewrite !andb_true_iff. intros [[L D] Hd].
  apply Nat.eqb_eq in L.
  destruct s as [| c1 [| c2 [| c3 [| c4 [| c5 [| c6 [| c7 [| c8 [| c9 [| c10 s]]]]]]]]]];
    try discriminate L.
  cbn [list_ascii_of_string forallb] in D. apply andb_true_iff in D.
  destruct D as [_ D].
  exact (extract_phone_nine c1 c2 c3 c4 c5 c6 c7 c8 c9 Hd D).
Qed.

Lemma extract_phone_nine_digits_witness :
  extract_phone_from_text (Some "612345678") = ["+34612345678"] /\
  extract_phone_from_text (Some "912345678") = ["+34912345678"].
Proof.
  split.
  - exact (extract_phone_nine_digits "612345678" eq_refl).
  - exact (extract_phone_nine_digits "912345678" eq_refl).
Defined.

(** ** Properties of the phone extractor *)

(** C1, at the input ["612 34 56 78"]: the mobile pattern matches the whole
    string, but its only group is the country prefix, so [findall] reports
    the empty prefix instead of the digits; the candidate becomes ["+34"] and
    is dropped, and no other pattern finds nine digits in a row.  The
    extractor returns no number where ["+34612345678"] was due. *)
Theorem extract_phone_separated_mobile_lost :
  Re.match_here true pattern_movil false "612 34 56 78" = Some (EmptyString, []) /\
  raw_matches "612 34 56 78" = [PyStr ""] /\
  candidates (Some "612 34 56 78") = ["+34"] /\
  extract_phone_from_text (Some "612 34 56 78") = [].
Proof. repeat split; vm_compute; reflexivity. Qed.

(** C2: on ["0034612345678"] the extractor returns the one-element list
    [["+34612345678"]]. *)
Theorem extract_phone_0034_example :
  extract_phone_from_text (Some "0034612345678") = ["+34612345678"].
Proof. vm_compute. reflexivity. Qed.

(** C5: for every text, a string is returned exactly when it is a normalized
    candidate of the text with at least 11 characters.  So every returned
    string has 11 characters or more, and a shorter candidate is left out of
    the list; the function has no other outcome than the list. *)
Theorem extract_phone_length_floor (text : option string) (p : string) :
  In p (extract_phone_from_text text) <->
  In p (candidates text) /\ 11 <= String.length p.
Proof.
  rewrite extract_phone_first_seen, first_seen_In, filter_In.
  unfold long_enough. now rewrite Nat.leb_le.
Qed.

(** C6: for every text the returned list has no repeated string, it lists
    the accepted candidates at their first occurrence, in the order they
    were met, and a second run on the same text gives the same list. *)
Theorem extract_phone_first_seen_order (text : option string) :
  NoDup (extract_phone_from_text text) /\
  extract_phone_from_text text = first_seen (filter long_enough (candidates text)) /\
  (forall text' : option string,
      text' = text -> extract_phone_from_text text' = extract_phone_from_text text).
Proof.
  split; [| split].
  - rewrite extract_phone_first_seen. apply first_seen_NoDup.
  - apply extract_phone_first_seen.
  - intros text' E. now rewrite E.
Qed.

(** ** Properties of the email extractor *)

(** A list without repetitions whose elements are those of [[a; a]] is [[a]],
    whatever order the set was read in. *)
Lemma set_of_pair_singleton (a : string) (l : list string) :
  NoDup l -> (forall x, In x l <-> In x [a; a]) -> l = [a].
Proof.
  intros Hnd Hin.
  assert (Ha : forall x, In x l -> x = a).
  { intros x Hx. apply Hin in Hx. simpl in Hx. intuition congruence. }
  destruct l as [| x [| y l]].
  - exfalso. apply (proj2 (Hin a)). now left.
  - f_equal. apply Ha. now left.
  - exfalso. inversion Hnd as [| ? ? Hx _]; subst. apply Hx.
    rewrite (Ha x), (Ha y); simpl; auto.
Qed.

Lemma email_matches_example :
  email_matches "Contact: a.b@example.co, again a.b@example.co" =
  ["a.b@example.co"; "a.b@example.co"].
Proof. vm_compute. reflexivity. Qed.

(** C9: on the text of the example the extractor returns exactly
    [["a.b@example.co"]], and on every text its result has no repeated
    string; both hold for every order in which a set may be listed. *)
Theorem extract_email_dedup `{Py.SetOrder} :
  extract_email_from_text (Some "Contact: a.b@example.co, again a.b@example.co") =
  ["a.b@example.co"] /\
  (forall text : option string, NoDup (extract_email_from_text text)).
Proof.
  split.
  - change (Py.list_of_set
              (email_matches "Contact: a.b@example.co, again a.b@example.co") =
            ["a.b@example.co"]).
    rewrite email_matches_example.
    apply set_of_pair_singleton;
      [apply Py.list_of_set_NoDup | apply Py.list_of_set_In].
  - intros [[| c s] |]; simpl; try constructor. apply Py.list_of_set_NoDup.
Qed.

Lemma extract_email_dedup_witness :
  @extract_email_from_text first_seen_order
    (Some "Contact: a.b@example.co, again a.b@example.co") = ["a.b@example.co"] /\
  NoDup (@extract_email_from_text first_seen_order (Some "a@b.es a@b.es c@d.es")).
Proof.
  split.
  - exact (proj1 (@extract_email_dedup first_seen_order)).
  - exact (proj2 (@extract_email_dedup first_seen_order) (Some "a@b.es a@b.es c@d.es")).
Defined.

(** C10: when the text is [None] or the empty string both extractors return
    the empty list; nothing is raised. *)
Theorem extractors_on_missing_text `{Py.SetOrder} :
  extract_phone_from_text None = [] /\
  extract_phone_from_text (Some "") = [] /\
  extract_email_from_text None = [] /\
  extract_email_from_text (Some "") = [].
Proof. repeat split. Qed.

(** ** Pagination *)

Lemma str_of_int_read_back (n : Z) :
  option_map Z.of_int (NilZero.int_of_string (Py.str_of_int n)) = Some n.
Proof.
  unfold Py.str_of_int. rewrite NilZero.isi.
  - simpl. f_equal. apply DecimalZ.of_to.
  - destruct n; simpl; try discriminate.
    intros [= E]. exact (DecimalPos.Unsigned.to_uint_nonnil _ E).
  - destruct n; simpl; try discriminate.
    intros [= E]. exact (DecimalPos.Unsigned.to_uint_nonnil _ E).
Qed.

(** C8: page 1 gets the base URL as it is, and every page [N > 1] gets the
    base URL followed by ["pagina-"], the decimal numeral of [N] (a string
    that reads back as [N]) and [".htm"]; with the base ["https://x/y/"] that
    is ["https://x/y/"] at page 1 and ["https://x/y/pagina-3.htm"] at page 3. *)
Theorem build_search_url_pages (base_url : string) :
  build_search_url base_url 1 = base_url /\
  (forall N : Z, (N > 1)%Z ->
     build_search_url base_url N =
       (base_url ++ "pagina-" ++ Py.str_of_int N ++ ".htm")%string /\
     option_map Z.of_int (NilZero.int_of_string (Py.str_of_int N)) = Some N) /\
  build_search_url "https://x/y/" 1 = "https://x/y/" /\
  build_search_url "https://x/y/" 3 = "https://x/y/pagina-3.htm".
Proof.
  split; [reflexivity | split; [| split; reflexivity]].
  intros N HN. split; [| apply str_of_int_read_back].
  unfold build_search_url.
  destruct (Z.leb_spec N 1) as [Hle | _]; [lia | reflexivity].
Qed.

Lemma build_search_url_pages_witness :
  build_search_url "https://www.idealista.com/venta-viviendas/madrid-madrid/con-particulares/" 2 =
  "https://www.idealista.com/venta-viviendas/madrid-madrid/con-particulares/pagina-2.htm".
Proof.
  exact (proj1 (proj1 (proj2 (build_search_url_pages
    "https://www.idealista.com/venta-viviendas/madrid-madrid/con-particulares/"))
    2%Z eq_refl)).
Defined.

(** ** The detail fetcher absorbs every failure *)

Section FetcherProperties.

Context `{Py.SetOrder} `{Site}.

Lemma scrape_property_detail_fetch_fails (property_url : string) (w : world) (e : exn) :
  urlopen_read w property_url = Raise e ->
  scrape_property_detail property_url w =
  (Ret no_contacts, logged (sent w property_url) ERROR (detail_error property_url e)).
Proof.
  intros E. unfold scrape_property_detail, try_except, bind, http_get.
  rewrite E. reflexivity.
Qed.

Lemma scrape_property_detail_parse_fails
      (property_url : string) (w : world) (html : string) (e : exn) :
  urlopen_read w property_url = Ret html -> BeautifulSoup html = Raise e ->
  scrape_property_detail property_url w =
  (Ret no_contacts, logged (sent w property_url) ERROR (detail_error property_url e)).
Proof.
  intros E1 E2. unfold scrape_property_detail, try_except, bind, http_get, lift.
  rewrite E1, E2. reflexivity.
Qed.

Lemma scrape_property_detail_returns (property_url : string) (w : world) :
  exists (c : contacts) (w' : world),
    scrape_property_detail property_url w = (Ret c, w').
Proof.
  destruct (urlopen_read w property_url) as [html | e] eqn:E1.
  - destruct (BeautifulSoup html) as [sp | e] eqn:E2.
    + unfold scrape_property_detail, try_except, bind, http_get, lift.
      rewrite E1, E2. unfold ret. eauto.
    + erewrite scrape_property_detail_parse_fails; eauto.
  - erewrite scrape_property_detail_fetch_fails; eauto.
Qed.

(** ** The loop of the listing fetcher *)

Lemma scrape_articles_full (max_properties : Z) (arts : list article)
      (properties : list listing) (w : world) :
  (max_properties <= Z.of_nat (length properties))%Z ->
  scrape_articles max_properties arts properties w = (Ret properties, w).
Proof.
  intros Hfull. destruct arts as [| a rest]; [reflexivity |].
  cbn [scrape_articles].
  destruct (Z.geb_spec (Z.of_nat (length properties)) max_properties) as [_ | Hroom];
    [reflexivity | exfalso; clear - Hfull Hroom; lia].
Qed.

Lemma scrape_articles_agency (max_properties : Z) (a : article) (rest : list article)
      (properties : list listing) (w : world) :
  is_agency a = true ->
  scrape_articles max_properties (a :: rest) properties w =
  scrape_articles max_properties rest properties w.
Proof.
  intros Ha. cbn [scrape_articles]. rewrite Ha.
  destruct (Z.geb_spec (Z.of_nat (length properties)) max_properties) as [Hfull | _];
    [| reflexivity].
  symmetry. now apply scrape_articles_full.
Qed.

Lemma scrape_articles_visit (max_properties : Z) (a : article) (rest : list article)
      (properties : list listing) (w w' : world) (url_abs : string) (c : contacts) :
  (Z.of_nat (length properties) < max_properties)%Z ->
  is_agency a = false ->
  resolve_url a = Ret (Some url_abs) -> url_abs <> EmptyString ->
  scrape_property_detail url_abs (logged w INFO (announce url_abs)) = (Ret c, w') ->
  scrape_articles max_properties (a :: rest) properties w =
  scrape_articles max_properties rest (visited a url_abs c w' properties) (slept w' 2).
Proof.
  intros Hroom Ha Hu Hne Hc. cbn [scrape_articles]. rewrite Ha, Hu.
  destruct (Z.geb_spec (Z.of_nat (length properties)) max_properties) as [Hfull | _];
    [exfalso; clear - Hfull Hroom; lia |].
  destruct url_abs as [| ch u]; [congruence |].
  unfold bind at 1. unfold logger at 1.
  change (World _ _ _) with (logged w INFO (announce (String ch u))).
  unfold bind at 1. rewrite Hc.
  unfold visited.
  destruct (nonempty (phones c) || nonempty (emails c)); reflexivity.
Qed.

Lemma scrape_articles_unlinked (max_properties : Z) (a : article) (rest : list article)
      (properties : list listing) (w : world) :
  resolve_url a = Ret None \/ resolve_url a = Ret (Some EmptyString) ->
  scrape_articles max_properties (a :: rest) properties w =
  scrape_articles max_properties rest properties w.
Proof.
  intros Hu. cbn [scrape_articles].
  destruct (Z.geb_spec (Z.of_nat (length properties)) max_properties) as [Hfull | _].
  - symmetry. now apply scrape_articles_full.
  - destruct (is_agency a); [reflexivity |]. now destruct Hu as [-> | ->].
Qed.

(** A link that [urljoin] refuses ends the loop with its exception. *)
Lemma scrape_articles_refused (max_properties : Z) (a : article) (rest : list article)
      (properties : list listing) (w : world) (e : exn) :
  (Z.of_nat (length properties) < max_properties)%Z ->
  is_agency a = false -> resolve_url a = Raise e ->
  scrape_articles max_properties (a :: rest) properties w = (Raise e, w).
Proof.
  intros Hroom Ha Hu. cbn [scrape_articles]. rewrite Ha, Hu.
  destruct (Z.geb_spec (Z.of_nat (length properties)) max_properties) as [Hfull | _];
    [exfalso; clear - Hfull Hroom; lia | reflexivity].
Qed.

Lemma visited_has_contact (a : article) (url_abs : string) (c : contacts) (w' : world)
      (properties : list listing) (r : listing) :
  In r (visited a url_abs c w' properties) ->
  In r properties \/
  (r = make_listing a (property_id url_abs) url_abs c (clock w') /\ has_contact r).
Proof.
  unfold visited. destruct (nonempty (phones c) || nonempty (emails c)) eqn:E; auto.
  rewrite in_app_iff. simpl. intros [Hr | [<- | []]]; auto.
  right. split; [reflexivity |]. unfold has_contact. simpl.
  apply orb_true_iff in E.
  destruct E as [E | E]; [left | right]; intros Z; rewrite Z in E; discriminate.
Qed.

(** What the loop can end with: a list whose records were there at the
    start or were built, with a contact, from an article that is no
    agency's; or the exception of [urljoin] on the link of such an article. *)
Definition loop_outcome (arts : list article) (properties : list listing)
           (out : result (list listing)) : Prop :=
  match out with
  | Ret properties' =>
      forall r : listing, In r properties' ->
        In r properties \/
        exists a : article,
          In a arts /\ is_agency a = false /\ built_from a r /\ has_contact r
  | Raise e =>
      exists a : article, In a arts /\ is_agency a = false /\ resolve_url a = Raise e
  end.

Lemma loop_outcome_later (a : article) (rest : list article)
      (properties : list listing) (out : result (list listing)) :
  loop_outcome rest properties out -> loop_outcome (a :: rest) properties out.
Proof.
  destruct out as [p | e]; cbn [loop_outcome].
  - intros Hp r Hr. destruct (Hp r Hr) as [? | (a0 & Ha0 & ?)]; [auto |].
    right. exists a0. split; [now right | assumption].
  - intros (a0 & Ha0 & ?). exists a0. split; [now right | assumption].
Qed.

Lemma scrape_articles_records (max_properties : Z) (arts : list article) :
  forall (properties : list listing) (w : world),
    loop_outcome arts properties
                 (fst (scrape_articles max_properties arts properties w)).
Proof.
  induction arts as [| a rest IH]; intros properties w.
  - cbn. auto.
  - destruct (Z.geb_spec (Z.of_nat (length properties)) max_properties) as [Hfull | Hroom].
    { rewrite scrape_articles_full by assumption. cbn. auto. }
    destruct (is_agency a) eqn:Ha.
    { rewrite scrape_articles_agency by assumption. apply loop_outcome_later, IH. }
    destruct (resolve_url a) as [[[| ch u] |] | e] eqn:Hu.
    + rewrite scrape_articles_unlinked by auto. apply loop_outcome_later, IH.
    + destruct (scrape_property_detail_returns (String ch u)
                  (logged w INFO (announce (String ch u)))) as (c & w1 & Hc).
      rewrite (scrape_articles_visit max_properties a rest properties w w1 (String ch u) c)
        by (auto; discriminate).
      pose proof (IH (visited a (String ch u) c w1 properties) (slept w1 2)) as Hout.
      destruct (fst (scrape_articles max_properties rest
                       (visited a (String ch u) c w1 properties) (slept w1 2)))
        as [p' | e]; cbn [loop_outcome] in *.
      * intros r Hr. destruct (Hout r Hr) as [Hv | (a0 & Ha0 & ?)].
        -- apply visited_has_contact in Hv. destruct Hv as [? | [-> Hhas]]; [auto |].
           right. exists a. split; [now left |]. split; [assumption |].
           split; [| assumption]. exists (String ch u), c, (clock w1). auto.
        -- right. exists a0. split; [now right | assumption].
      * destruct Hout as (a0 & Ha0 & ?). exists a0. split; [now right | assumption].
    + rewrite scrape_articles_unlinked by auto. apply loop_outcome_later, IH.
    + rewrite (scrape_articles_refused max_properties a rest properties w e)
        by assumption.
      cbn. exists a. split; [now left | auto].
Qed.

(** The loop returns when [urljoin] accepts the links of the page. *)
Lemma scrape_articles_returns (max_properties : Z) (arts : list article)
      (properties : list listing) (w : world) :
  (forall a : article, In a arts -> exists u, resolve_url a = Ret u) ->
  exists (properties' : list listing) (w' : world),
    scrape_articles max_properties arts properties w = (Ret properties', w').
Proof.
  intros Hok. pose proof (scrape_articles_records max_properties arts properties w) as O.
  destruct (scrape_articles max_properties arts properties w) as [[p | e] w'].
  - eauto.
  - cbn in O. destruct O as (a & Ha & _ & Hr).
    destruct (Hok a Ha) as [u Hu]. congruence.
Qed.

Lemma scrape_articles_cong (max_properties : Z) (l1 l2 : list article) :
  (forall properties w,
      scrape_articles max_properties l1 properties w =
      scrape_articles max_properties l2 properties w) ->
  forall (b : article) (properties : list listing) (w : world),
    scrape_articles max_properties (b :: l1) properties w =
    scrape_articles max_properties (b :: l2) properties w.
Proof.
  intros E b properties w.
  destruct (Z.geb_spec (Z.of_nat (length properties)) max_properties) as [Hfull | Hroom].
  { now rewrite !scrape_articles_full. }
  destruct (is_agency b) eqn:Hb.
  { now rewrite !scrape_articles_agency. }
  destruct (resolve_url b) as [[[| ch u] |] | e] eqn:Hu;
    [now rewrite !scrape_articles_unlinked by auto | |
     now rewrite !scrape_articles_unlinked by auto |
     now rewrite !(scrape_articles_refused max_properties b _ properties w e)].
  destruct (scrape_property_detail_returns (String ch u)
              (logged w INFO (announce (String ch u)))) as (c & w1 & Hc).
  rewrite (scrape_articles_visit max_properties b l1 properties w w1 (String ch u) c)
    by (auto; discriminate).
  rewrite (scrape_articles_visit max_properties b l2 properties w w1 (String ch u) c)
    by (auto; discriminate).
  apply E.
Qed.

Lemma scrape_articles_without (max_properties : Z) (a : article)
      (before after : list article) :
  is_agency a = true ->
  forall (properties : list listing) (w : world),
    scrape_articles max_properties (before ++ a :: after) properties w =
    scrape_articles max_properties (before ++ after) properties w.
Proof.
  intros Ha. induction before as [| b before IH]; intros properties w; simpl app.
  - now apply scrape_articles_agency.
  - now apply scrape_articles_cong.
Qed.

(** With the results page fetched and parsed the listing fetcher ends as
    the loop over its articles does, with one more log line when the loop
    returns. *)
Lemma scrape_idealista_contacts_parsed (base_url : string) (page max_properties : Z)
      (w : world) (html : string) (sp : soup) :
  urlopen_read w (build_search_url base_url page) = Ret html ->
  BeautifulSoup html = Ret sp ->
  scrape_idealista_contacts base_url page max_properties w =
  match scrape_articles max_properties (articles sp) []
          (sent w (build_search_url base_url page)) with
  | (Ret properties, w1) => (Ret properties, logged w1 INFO (found_message properties))
  | (Raise e, w1) => (Raise e, w1)
  end.
Proof.
  intros E1 E2.
  unfold scrape_idealista_contacts. unfold bind at 1. unfold http_get. rewrite E1.
  unfold bind at 1. unfold lift. rewrite E2.
  unfold bind at 1. fold (sent w (build_search_url base_url page)).
  destruct (scrape_articles max_properties (articles sp) []
              (sent w (build_search_url base_url page))) as [[p | e] w1]; reflexivity.
Qed.

(** It returns a list only then: a failure on the results page is raised. *)
Lemma scrape_idealista_contacts_returned (base_url : string) (page max_properties : Z)
      (w w' : world) (properties : list listing) :
  scrape_idealista_contacts base_url page max_properties w = (Ret properties, w') ->
  exists (html : string) (sp : soup),
    urlopen_read w (build_search_url base_url page) = Ret html /\
    BeautifulSoup html = Ret sp.
Proof.
  unfold scrape_idealista_contacts. unfold bind at 1. unfold http_get.
  destruct (urlopen_read w (build_search_url base_url page)) as [html | e];
    [| discriminate].
  unfold bind at 1. unfold lift.
  destruct (BeautifulSoup html) as [sp | e] eqn:E2; [| discriminate].
  intros _. exists html, sp. auto.
Qed.

(** The listing fetcher returns what the loop builds from the articles of
    the results page, and adds one log line. *)
Lemma scrape_idealista_contacts_loop (base_url : string) (page max_properties : Z)
      (w w' : world) (properties : list listing) :
  scrape_idealista_contacts base_url page max_properties w = (Ret properties, w') ->
  exists (html : string) (sp : soup) (w1 : world),
    urlopen_read w (build_search_url base_url page) = Ret html /\
    BeautifulSoup html = Ret sp /\
    scrape_articles max_properties (articles sp) []
                    (sent w (build_search_url base_url page)) = (Ret properties, w1) /\
    w' = logged w1 INFO (found_message properties).
Proof.
  intros E.
  destruct (scrape_idealista_contacts_returned _ _ _ _ _ _ E) as (html & sp & E1 & E2).
  exists html, sp.
  rewrite (scrape_idealista_contacts_parsed _ _ _ _ _ _ E1 E2) in E.
  destruct (scrape_articles max_properties (articles sp) []
              (sent w (build_search_url base_url page))) as [[p | e] w1] eqn:El;
    [| discriminate].
  injection E as <- <-. exists w1. auto.
Qed.

(** Every record of a returned list was built, with a contact, from an
    article of the results page that is no agency's. *)
Lemma scrape_idealista_contacts_run (base_url : string) (page max_properties : Z)
      (w w' : world) (html : string) (sp : soup) (properties : list listing) :
  urlopen_read w (build_search_url base_url page) = Ret html ->
  BeautifulSoup html = Ret sp ->
  scrape_idealista_contacts base_url page max_properties w = (Ret properties, w') ->
  forall r : listing, In r properties ->
    exists a : article,
      In a (articles sp) /\ is_agency a = false /\ built_from a r /\ has_contact r.
Proof.
  intros E1 E2 E r Hr.
  rewrite (scrape_idealista_contacts_parsed _ _ _ _ _ _ E1 E2) in E.
  pose proof (scrape_articles_records max_properties (articles sp) []
                (sent w (build_search_url base_url page))) as O.
  destruct (scrape_articles max_properties (articles sp) []
              (sent w (build_search_url base_url page))) as [[p | e] w1];
    [| discriminate].
  injection E as <- _. cbn in O. destruct (O r Hr) as [[] | Ha]. exact Ha.
Qed.

End FetcherProperties.

(** ** Properties of the fetchers *)

(** C4: for every listing URL, in every world, the detail fetcher returns a
    Contact Bundle and does not raise; when the fetch (request, read,
    decoding) or the parse fails it returns the empty bundle, and the only
    trace of the failure is one ERROR line in the log. *)
Theorem scrape_property_detail_never_raises `{Py.SetOrder} `{Site}
        (property_url : string) (w : world) :
  (exists (c : contacts) (w' : world),
      scrape_property_detail property_url w = (Ret c, w')) /\
  (forall e : exn,
      urlopen_read w property_url = Raise e \/
      (exists html : string,
          urlopen_read w property_url = Ret html /\ BeautifulSoup html = Raise e) ->
      scrape_property_detail property_url w =
      (Ret (Contacts [] []),
       logged (sent w property_url) ERROR (detail_error property_url e))).
Proof.
  split; [apply scrape_property_detail_returns |].
  intros e [E | (html & E1 & E2)].
  - now apply scrape_property_detail_fetch_fails.
  - now apply scrape_property_detail_parse_fails with html.
Qed.

Lemma scrape_property_detail_never_raises_witness :
  scrape_property_detail "https://www.idealista.com/inmueble/9/" Demo.start =
    (Ret (Contacts [] []),
     World [(ERROR, "Error scraping detail https://www.idealista.com/inmueble/9/: HTTP Error 404: Not Found")]
           0 ["https://www.idealista.com/inmueble/9/"]) /\
  scrape_property_detail "https://www.idealista.com/inmueble/4/" Demo.start =
    (Ret (Contacts [] []),
     World [(ERROR, "Error scraping detail https://www.idealista.com/inmueble/4/: maximum recursion depth exceeded")]
           0 ["https://www.idealista.com/inmueble/4/"]).
Proof.
  split.
  - exact (proj2 (scrape_property_detail_never_raises
                    "https://www.idealista.com/inmueble/9/" Demo.start)
                 (Exception "HTTP Error 404: Not Found") (or_introl eq_refl)).
  - exact (proj2 (scrape_property_detail_never_raises
                    "https://www.idealista.com/inmueble/4/" Demo.start)
                 (Exception "maximum recursion depth exceeded")
                 (or_intror (ex_intro _ "detail4" (conj eq_refl eq_refl)))).
Defined.

(** C3: every record of the list the listing fetcher returns has a phone or
    an email; and it does return a list whenever the results page is fetched
    and parsed and [urljoin] accepts the links of its articles. *)
Theorem scrape_idealista_contacts_records_have_contact `{Py.SetOrder} `{Site}
        (base_url : string) (page max_properties : Z) (w : world) :
  (forall (properties : list listing) (w' : world),
      scrape_idealista_contacts base_url page max_properties w = (Ret properties, w') ->
      forall r : listing, In r properties ->
        Listing.telefonos r <> [] \/ Listing.emails r <> []) /\
  (forall (html : string) (sp : soup),
      urlopen_read w (build_search_url base_url page) = Ret html ->
      BeautifulSoup html = Ret sp ->
      (forall a : article, In a (articles sp) -> exists u, resolve_url a = Ret u) ->
      exists (properties : list listing) (w' : world),
        scrape_idealista_contacts base_url page max_properties w = (Ret properties, w')).
Proof.
  split.
  - intros properties w' E r Hr.
    destruct (scrape_idealista_contacts_returned _ _ _ _ _ _ E) as (html & sp & E1 & E2).
    destruct (scrape_idealista_contacts_run _ _ _ _ _ _ _ _ E1 E2 E r Hr)
      as (a & _ & _ & _ & Hhas).
    exact Hhas.
  - intros html sp E1 E2 Hok.
    rewrite (scrape_idealista_contacts_parsed _ _ _ _ _ _ E1 E2).
    destruct (scrape_articles_returns max_properties (articles sp) []
                (sent w (build_search_url base_url page)) Hok) as (p & w1 & ->).
    eauto.
Qed.

Lemma scrape_idealista_contacts_records_have_contact_witness :
  exists (properties : list listing) (w' : world),
    scrape_idealista_contacts "https://x/y/" 1 10 Demo.start = (Ret properties, w') /\
    length properties = 1 /\
    Forall (fun r => Listing.telefonos r <> [] \/ Listing.emails r <> []) properties.
Proof.
  eexists. eexists. split; [vm_compute; reflexivity |]. split; [reflexivity |].
  apply Forall_forall. intros r Hr.
  eapply (proj1 (scrape_idealista_contacts_records_have_contact
                   "https://x/y/" 1 10 Demo.start)); [| exact Hr].
  vm_compute. reflexivity.
Defined.

(** C7: a candidate whose subtitle text contains "agencia" or "inmobiliaria",
    in any letter case, is skipped: the loop runs as if the candidate were
    not on the page (same list, same log, clock and requests, so its detail
    page is not even asked for), and every record the listing fetcher
    returns was built from another article of the page. *)
Theorem agency_listing_skipped `{Py.SetOrder} `{Site}
        (a : article) (extra_text : string) :
  extra_info a = Some extra_text ->
  contains "agencia" (lower_str extra_text) \/
  contains "inmobiliaria" (lower_str extra_text) ->
  (forall (max_properties : Z) (before after : list article)
          (properties : list listing) (w : world),
      scrape_articles max_properties (before ++ a :: after) properties w =
      scrape_articles max_properties (before ++ after) properties w) /\
  (forall (base_url : string) (page max_properties : Z) (w w' : world)
          (html : string) (sp : soup) (properties : list listing),
      urlopen_read w (build_search_url base_url page) = Ret html ->
      BeautifulSoup html = Ret sp ->
      scrape_idealista_contacts base_url page max_properties w = (Ret properties, w') ->
      forall r : listing, In r properties ->
        exists a' : article, In a' (articles sp) /\ a' <> a /\ built_from a' r).
Proof.
  intros Hextra Htext.
  assert (Ha : is_agency a = true).
  { apply is_agency_spec. exists extra_text. split; assumption. }
  split.
  - intros max_properties before after. now apply scrape_articles_without.
  - intros base_url page max_properties w w' html sp properties E1 E2 E r Hr.
    destruct (scrape_idealista_contacts_run _ _ _ _ _ _ _ _ E1 E2 E r Hr)
      as (a' & Hin & Hno & Hbuilt & _).
    exists a'. split; [assumption |]. split; [| assumption].
    intros ->. congruence.
Qed.

Lemma agency_listing_skipped_witness :
  scrape_articles 10 ([Demo.owner] ++ Demo.agency :: [Demo.silent]) [] Demo.start =
  scrape_articles 10 ([Demo.owner] ++ [Demo.silent]) [] Demo.start /\
  fst (scrape_articles 10 [Demo.agency] [] Demo.start) = Ret [].
Proof.
  assert (T : contains "agencia" (lower_str "Inmobiliaria XYZ") \/
              contains "inmobiliaria" (lower_str "Inmobiliaria XYZ")).
  { right. exists "", " xyz". reflexivity. }
  split.
  - exact (proj1 (agency_listing_skipped Demo.agency "Inmobiliaria XYZ" eq_refl T)
                 10%Z [Demo.owner] [Demo.silent] [] Demo.start).
  - exact (f_equal fst
             (proj1 (agency_listing_skipped Demo.agency "Inmobiliaria XYZ" eq_refl T)
                    10%Z [] [] [] Demo.start)).
Defined.

(** ** The matcher is sound for the matching relation *)

Lemma run_sound (ic : bool) (r : regex) :
  forall (g : nat) (k : cont) (s : string) (caps : captures) (o : outcome),
    run ic r g k s caps = Some o ->
    exists (s' : string) (caps' : captures),
      matches ic r s s' /\ k s' caps' = Some o /\ (ngroups r = 0 -> caps' = caps).
Proof.
  induction r as [| p | r1 IH1 r2 IH2 | r1 IH1 r2 IH2 | lo hi r IH | r IH];
    intros g k s caps o E.
  - exists s, caps. cbn. auto.
  - destruct s as [| c s]; cbn [run] in E; [discriminate |].
    destruct (Chars.test ic p c) eqn:T; [| discriminate].
    exists s, caps. cbn [matches]. eauto.
  - cbn [run] in E. apply IH1 in E. destruct E as (m & caps1 & M1 & E & C1).
    apply IH2 in E. destruct E as (s' & caps' & M2 & E & C2).
    exists s', caps'. cbn [matches ngroups]. split; [eauto |]. split; [exact E |].
    intros Z. rewrite C2, C1 by lia. reflexivity.
  - cbn [run] in E. cbn [matches ngroups].
    destruct (run ic r1 g k s caps) as [o1 |] eqn:E1.
    + injection E as <-. apply IH1 in E1. destruct E1 as (s' & caps' & M & E1 & C).
      exists s', caps'. split; [auto |]. split; [exact E1 |]. intros Z. apply C. lia.
    + apply IH2 in E. destruct E as (s' & caps' & M & E & C).
      exists s', caps'. split; [auto |]. split; [exact E |]. intros Z. apply C. lia.
  - cbn [run] in E. cbn [matches ngroups].
    assert (L : forall fuel lo hi s caps,
               repeat_loop (fun k' => run ic r g k') k fuel lo hi s caps = Some o ->
               exists n s' caps',
                 lo <= n /\ within hi n /\ iter (matches ic r) n s s' /\
                 k s' caps' = Some o /\ (ngroups r = 0 -> caps' = caps)).
    { clear E s caps lo hi. induction fuel as [| fuel IHf]; intros lo hi s caps E;
        cbn [repeat_loop] in E.
      - destruct (Nat.eqb_spec lo 0) as [-> | _]; [| discriminate].
        exists 0, s, caps. cbn. repeat split; auto. destruct hi; cbn; lia.
      - assert (Stop : (if lo =? 0 then k s caps else None) = Some o ->
                       exists n s' caps',
                         lo <= n /\ within hi n /\ iter (matches ic r) n s s' /\
                         k s' caps' = Some o /\ (ngroups r = 0 -> caps' = caps)).
        { destruct (Nat.eqb_spec lo 0) as [-> | _]; [| discriminate].
          intros Ek. exists 0, s, caps. cbn. repeat split; auto.
          destruct hi; cbn; lia. }
        destruct (may_repeat hi) eqn:R; [| now apply Stop].
        match type of E with
        | match ?X with _ => _ end = _ => destruct X as [o1 |] eqn:E1
        end; [| now apply Stop].
        injection E as <-. apply IH in E1. destruct E1 as (m & caps1 & M & E1 & C1).
        destruct (String.length m <? String.length s); [| discriminate].
        apply IHf in E1. destruct E1 as (n & s' & caps' & Hlo & Hhi & It & Ek & C).
        exists (S n), s', caps'. split; [lia |]. split.
        { destruct hi as [[| h] |]; cbn in *; try discriminate; lia. }
        split; [cbn; eauto |]. split; [exact Ek |].
        intros Z. rewrite C, C1 by assumption. reflexivity. }
    apply L in E. destruct E as (n & s' & caps' & ? & ? & ? & ? & ?).
    exists s', caps'. eauto 10.
  - cbn [run] in E. apply IH in E. destruct E as (s' & caps' & M & E & _).
    exists s', (set_capture g (consumed s s') caps'). cbn [matches ngroups].
    split; [exact M |]. split; [exact E | discriminate].
Qed.

Lemma match_here_sound (ic : bool) (r : regex) (b : bool) (s : string) (o : outcome) :
  Re.match_here ic r b s = Some o ->
  matches ic r s (fst o) /\ (ngroups r = 0 -> snd o = []).
Proof.
  unfold Re.match_here. intros E. apply run_sound in E.
  destruct E as (s' & caps' & M & E & C).
  destruct (b && (String.length s' =? String.length s)); [discriminate |].
  injection E as <-. cbn. auto.
Qed.

Lemma append_assoc (x y z : string) : ((x ++ y) ++ z = x ++ (y ++ z))%string.
Proof. induction x as [| c x IH]; cbn; [reflexivity | now rewrite IH]. Qed.

Lemma append_nil_r (x : string) : (x ++ "")%string = x.
Proof. induction x as [| c x IH]; cbn; [reflexivity | now rewrite IH]. Qed.

Lemma iter_suffix (R : string -> string -> Prop) (n : nat) :
  (forall s s', R s s' -> exists x : string, s = (x ++ s')%string) ->
  forall s s', iter R n s s' -> exists x : string, s = (x ++ s')%string.
Proof.
  intros HR. induction n as [| n IH]; intros s s' It; cbn in It.
  - exists "". now subst.
  - destruct It as (m & Hm & It). apply HR in Hm. apply IH in It.
    destruct Hm as [x ->], It as [y ->]. exists (x ++ y)%string.
    now rewrite append_assoc.
Qed.

(** What is left by a match is a suffix of the subject. *)
Lemma matches_suffix (ic : bool) (r : regex) :
  forall s s', matches ic r s s' -> exists x : string, s = (x ++ s')%string.
Proof.
  induction r as [| p | r1 IH1 r2 IH2 | r1 IH1 r2 IH2 | lo hi r IH | r IH];
    intros s s' M; cbn [matches] in M.
  - exists "". now subst.
  - destruct M as (c & -> & _). now exists (String c "").
  - destruct M as (m & M1 & M2). apply IH1 in M1. apply IH2 in M2.
    destruct M1 as [x ->], M2 as [y ->]. exists (x ++ y)%string.
    now rewrite append_assoc.
  - destruct M as [M | M]; auto.
  - destruct M as (n & _ & _ & It). now apply (iter_suffix _ n IH).
  - auto.
Qed.

Lemma length_append (x y : string) :
  String.length (x ++ y) = String.length x + String.length y.
Proof. induction x as [| c x IH]; cbn; [reflexivity | now rewrite IH]. Qed.

Lemma substring_prefix (x y : string) : substring 0 (String.length x) (x ++ y) = x.
Proof.
  induction x as [| c x IH]; cbn.
  - now destruct y.
  - now rewrite IH.
Qed.

Lemma consumed_append (x s' : string) : Re.consumed (x ++ s') s' = x.
Proof.
  unfold Re.consumed. rewrite length_append.
  replace (String.length x + String.length s' - String.length s') with (String.length x)
    by lia.
  apply substring_prefix.
Qed.

Lemma append_cancel (x y s' : string) : (x ++ s' = y ++ s')%string -> x = y.
Proof.
  intros E. rewrite <- (consumed_append x s'), <- (consumed_append y s').
  now rewrite E.
Qed.

(** The items [scan] reports come from [miss] or from a match at a suffix
    of the subject. *)
Lemma scan_sound {A : Type} (hit : string -> outcome -> A) (miss : ascii -> list A)
      (ic : bool) (r : regex) (s : string) :
  forall (skip : nat) (x : A),
    In x (scan hit miss ic r skip s) ->
    (exists c, In x (miss c)) \/
    exists (pre post : string) (b : bool) (o : outcome),
      s = (pre ++ post)%string /\ Re.match_here ic r b post = Some o /\ x = hit post o.
Proof.
  assert (Here : forall (t : string) (b : bool) (o : outcome) (x : A),
             Re.match_here ic r b t = Some o -> x = hit t o ->
             (exists c, In x (miss c)) \/
             exists pre post b o,
               t = (pre ++ post)%string /\ Re.match_here ic r b post = Some o /\
               x = hit post o).
  { intros t b o x E ->. right. exists "", t, b, o. auto. }
  assert (Later : forall (c : ascii) (t : string) (x : A),
             ((exists c, In x (miss c)) \/
              exists pre post b o,
                t = (pre ++ post)%string /\ Re.match_here ic r b post = Some o /\
                x = hit post o) ->
             (exists c, In x (miss c)) \/
             exists pre post b o,
               String c t = (pre ++ post)%string /\
               Re.match_here ic r b post = Some o /\ x = hit post o).
  { intros c t x [Hm | (pre & post & b & o & -> & E & ->)]; [now left |].
    right. exists (String c pre), post, b, o. auto. }
  induction s as [| c s IH]; intros skip x Hx.
  - destruct skip as [| skip]; cbn [scan] in Hx; [| contradiction].
    destruct (Re.match_here ic r false "") as [o |] eqn:E; [| contradiction].
    destruct (String.length "" - String.length (fst o)) eqn:N.
    + destruct Hx as [<- | Hx]; [now apply (Here "" false o) |].
      destruct (Re.match_here ic r true "") as [o' |] eqn:E'; [| contradiction].
      destruct Hx as [<- | []]. now apply (Here "" true o').
    + destruct Hx as [<- | []]. now apply (Here "" false o).
  - destruct skip as [| skip]; cbn [scan] in Hx.
    2:{ apply Later. now apply (IH skip). }
    assert (Next : forall n,
               In x (match n with
                     | 0 => miss c ++ scan hit miss ic r 0 s
                     | S n' => scan hit miss ic r n' s
                     end) ->
               (exists c, In x (miss c)) \/
               exists pre post b o,
                 String c s = (pre ++ post)%string /\
                 Re.match_here ic r b post = Some o /\ x = hit post o).
    { intros [| n] Hn.
      - apply in_app_or in Hn. destruct Hn as [Hn | Hn]; [left; eauto |].
        apply Later. now apply (IH 0).
      - apply Later. now apply (IH n). }
    destruct (Re.match_here ic r false (String c s)) as [o |] eqn:E;
      [| now apply (Next 0)].
    destruct (String.length (String c s) - String.length (fst o)) eqn:N.
    + destruct Hx as [<- | Hx]; [now apply (Here (String c s) false o) |].
      destruct (Re.match_here ic r true (String c s)) as [o' |] eqn:E'.
      * destruct Hx as [<- | Hx]; [now apply (Here (String c s) true o') |].
        exact (Next _ Hx).
      * now apply (Next 0).
    + destruct Hx as [<- | Hx]; [now apply (Here (String c s) false o) |].
      now apply (Next (S n)).
Qed.

Lemma findall_sound (ic : bool) (r : regex) (text : string) (x : pyobj) :
  In x (Re.findall ic r text) ->
  exists (pre post : string) (b : bool) (o : outcome),
    text = (pre ++ post)%string /\ Re.match_here ic r b post = Some o /\
    x = findall_item r post o.
Proof.
  unfold Re.findall. intros Hx. apply scan_sound in Hx.
  destruct Hx as [[c []] | Hx]. exact Hx.
Qed.

(** ** What the phone patterns can report *)

(** On the classes and literals of the patterns IGNORECASE adds nothing. *)
Lemma icase_adds_nothing (c : ascii) :
  keeps Chars.digit c && keeps (Chars.one_of "6789") c && keeps Chars.alpha c &&
  keeps (fun c => Chars.alpha c || Chars.digit c || Chars.one_of "._%+-" c) c &&
  keeps (fun c => Chars.alpha c || Chars.digit c || Chars.one_of ".-" c) c &&
  keeps (Chars.lit "+") c && keeps (Chars.lit "0") c && keeps (Chars.lit "3") c &&
  keeps (Chars.lit "4") c && keeps (Chars.lit "@") c && keeps (Chars.lit ".") c = true.
Proof. destruct c as [[] [] [] [] [] [] [] []]; vm_compute; reflexivity. Qed.

Ltac icase_fact c :=
  let F := fresh "F" in
  pose proof (icase_adds_nothing c) as F; unfold keeps in F;
  repeat rewrite andb_true_iff in F;
  repeat match goal with
         | H : Chars.test true _ c = true |- _ => rewrite H in F
         end;
  cbn [implb] in F; intuition.

Lemma icase_digit (c : ascii) :
  Chars.test true Chars.digit c = true -> Chars.digit c = true.
Proof. intros T. icase_fact c. Qed.

Lemma icase_lead (c : ascii) :
  Chars.test true (Chars.one_of "6789") c = true -> Chars.one_of "6789" c = true.
Proof. intros T. icase_fact c. Qed.

Lemma icase_lit (a c : ascii) :
  In a (list_ascii_of_string "+034@.") ->
  Chars.test true (Chars.lit a) c = true -> c = a.
Proof.
  intros Ha T. symmetry. apply Ascii.eqb_eq. change (Chars.lit a c = true).
  cbn in Ha. destruct Ha as [<- | [<- | [<- | [<- | [<- | [<- | []]]]]]];
    icase_fact c.
Qed.

Lemma iprefix_exact (p s : string) :
  (forall a, In a (list_ascii_of_string p) -> In a (list_ascii_of_string "+034@.")) ->
  iprefix p s = true -> s = (p ++ drop (String.length p) s)%string.
Proof.
  revert s. induction p as [| a p IH]; intros s Hp E; [reflexivity |].
  destruct s as [| c s]; cbn [iprefix] in E; [discriminate |].
  apply andb_true_iff in E. destruct E as [T E].
  apply icase_lit in T; [| apply Hp; now left]. subst c.
  cbn [String.length drop append]. f_equal. apply IH; [| exact E].
  intros b Hb. apply Hp. now right.
Qed.

(** The optional prefix group leaves no capture, ["+34"] or ["0034"]. *)
Lemma country_prefix_captures (K : cont) (s : string) (o : outcome) :
  run true country_prefix 0 K s [] = Some o ->
  exists (s' : string) (caps' : captures),
    K s' caps' = Some o /\ prefix_captures caps'.
Proof.
  unfold country_prefix, opt. cbn [run]. intros E.
  assert (Stop : K s [] = Some o ->
                 exists s' caps', K s' caps' = Some o /\ prefix_captures caps').
  { intros Ek. exists s, []. split; [exact Ek | now left]. }
  destruct (String.length s) as [| fuel] eqn:L; cbn [repeat_loop Nat.eqb may_repeat] in E;
    [now apply Stop |].
  assert (Taken : forall (p : string) (v : captures),
             p = "+34" \/ p = "0034" ->
             iprefix p s = true ->
             (if String.length (drop (String.length p) s) <? String.length s
              then repeat_loop
                     (fun k' => run true (Group (Alt (lits "+34") (lits "0034"))) 0 k')
                     K fuel (pred 0) (pred_hi (Some 1)) (drop (String.length p) s)
                     (set_capture 0 (consumed s (drop (String.length p) s)) v)
              else None) = Some o ->
             v = [] ->
             exists s' caps', K s' caps' = Some o /\ prefix_captures caps').
  { intros p v Hp Hi Ek ->.
    assert (Ex : s = (p ++ drop (String.length p) s)%string).
    { apply iprefix_exact; [| exact Hi].
      destruct Hp as [-> | ->]; cbn; intuition. }
    assert (C : consumed s (drop (String.length p) s) = p).
    { rewrite Ex at 1. apply consumed_append. }
    rewrite C in Ek.
    destruct (String.length (drop (String.length p) s) <? String.length s);
      [| discriminate].
    assert (Ek' : K (drop (String.length p) s) (set_capture 0 p []) = Some o).
    { destruct fuel; cbn [repeat_loop pred pred_hi may_repeat Nat.eqb] in Ek; exact Ek. }
    exists (drop (String.length p) s), (set_capture 0 p []).
    split; [exact Ek' |]. destruct Hp as [-> | ->]; cbn; [right; left | right; right];
      reflexivity. }
  cbn [run ngroups] in E. rewrite !run_lits in E.
  destruct (iprefix "+34" s) eqn:P1.
  - match type of E with
    | match (match ?X with _ => _ end) with _ => _ end = _ =>
        destruct X as [o1 |] eqn:E1
    end.
    + injection E as <-. apply (Taken "+34" []); auto.
    + destruct (iprefix "0034" s) eqn:P2.
      * match type of E with
        | match ?X with _ => _ end = _ => destruct X as [o2 |] eqn:E2
        end; [| now apply Stop].
        injection E as <-. apply (Taken "0034" []); auto.
      * now apply Stop.
  - destruct (iprefix "0034" s) eqn:P2.
    + match type of E with
      | match ?X with _ => _ end = _ => destruct X as [o2 |] eqn:E2
      end; [| now apply Stop].
      injection E as <-. apply (Taken "0034" []); auto.
    + now apply Stop.
Qed.

(** A pattern made of the prefix group and a part without groups reports
    the prefix, which is no number. *)
Lemma prefixed_pattern_item (rest : regex) (b : bool) (post : string) (o : outcome) :
  ngroups rest = 0 ->
  Re.match_here true (Seq country_prefix rest) b post = Some o ->
  findall_item (Seq country_prefix rest) post o = PyStr "" \/
  findall_item (Seq country_prefix rest) post o = PyStr "+34" \/
  findall_item (Seq country_prefix rest) post o = PyStr "0034".
Proof.
  intros G E. unfold Re.match_here in E. cbn [run] in E.
  apply country_prefix_captures in E. destruct E as (s1 & caps1 & E & P).
  apply run_sound in E. destruct E as (s2 & caps2 & _ & E & C).
  rewrite (C G) in E.
  destruct (b && (String.length s2 =? String.length post)); [discriminate |].
  injection E as <-.
  unfold findall_item. cbn [ngroups]. rewrite G. cbn [country_prefix opt ngroups Nat.add snd].
  destruct P as [-> | [-> | ->]]; cbn; auto.
Qed.

Lemma prefix_items_dropped (x : pyobj) :
  x = PyStr "" \/ x = PyStr "+34" \/ x = PyStr "0034" ->
  long_enough (normalize x) = false.
Proof. intros [-> | [-> | ->]]; reflexivity. Qed.

Lemma nine_digits_nine (c1 c2 c3 c4 c5 c6 c7 c8 c9 : ascii) :
  Chars.one_of "6789" c1 = true ->
  forallb Chars.digit [c2; c3; c4; c5; c6; c7; c8; c9] = true ->
  nine_digits (nine c1 c2 c3 c4 c5 c6 c7 c8 c9) = true.
Proof.
  intros L D. unfold nine_digits, nine.
  cbn [String.length Nat.eqb list_ascii_of_string forallb andb].
  cbn [forallb] in D. rewrite D, L.
  destruct (lead_cases c1 L) as [-> | [-> | [-> | ->]]]; reflexivity.
Qed.

(** A match of the third pattern is nine digits in a row. *)
Lemma nueve_match (b : bool) (post : string) (o : outcome) :
  Re.match_here true pattern_nueve b post = Some o ->
  exists c1 c2 c3 c4 c5 c6 c7 c8 c9 : ascii,
    Chars.one_of "6789" c1 = true /\
    forallb Chars.digit [c2; c3; c4; c5; c6; c7; c8; c9] = true /\
    post = (nine c1 c2 c3 c4 c5 c6 c7 c8 c9 ++ fst o)%string.
Proof.
  intros E. apply match_here_sound in E. destruct E as [M _].
  unfold pattern_nueve, times in M. cbn [matches] in M.
  destruct M as (m & (c1 & -> & T1) & n & Hlo & Hhi & It).
  cbn [within] in Hhi. assert (n = 8) by lia. subst n.
  cbn [iter matches] in It.
  destruct It as (m2 & (c2 & -> & T2) & m3 & (c3 & -> & T3) & m4 & (c4 & -> & T4)
                  & m5 & (c5 & -> & T5) & m6 & (c6 & -> & T6) & m7 & (c7 & -> & T7)
                  & m8 & (c8 & -> & T8) & m9 & (c9 & -> & T9) & ->).
  exists c1, c2, c3, c4, c5, c6, c7, c8, c9.
  split; [now apply icase_lead |]. split; [| reflexivity].
  cbn [forallb].
  now rewrite (icase_digit _ T2), (icase_digit _ T3), (icase_digit _ T4),
    (icase_digit _ T5), (icase_digit _ T6), (icase_digit _ T7),
    (icase_digit _ T8), (icase_digit _ T9).
Qed.

Lemma contains_middle (pre d post : string) : contains d (pre ++ d ++ post).
Proof. now exists pre, post. Qed.

(** Each raw match is a prefix, which the length floor drops, or nine
    digits in a row of the text. *)
Lemma raw_matches_sound (text : string) (x : pyobj) :
  In x (raw_matches text) ->
  long_enough (normalize x) = false \/
  exists d : string,
    nine_digits d = true /\ contains d text /\
    x = PyStr d /\ normalize x = ("+34" ++ d)%string.
Proof.
  unfold raw_matches, patterns. rewrite in_flat_map.
  intros (pattern & Hp & Hx). apply findall_sound in Hx.
  destruct Hx as (pre & post & b & o & -> & E & ->).
  cbn [In] in Hp. destruct Hp as [<- | [<- | [<- | []]]].
  - left. apply prefix_items_dropped.
    apply (prefixed_pattern_item _ b post o); [reflexivity | exact E].
  - left. apply prefix_items_dropped.
    apply (prefixed_pattern_item _ b post o); [reflexivity | exact E].
  - right. destruct (nueve_match b post o E)
      as (c1 & c2 & c3 & c4 & c5 & c6 & c7 & c8 & c9 & L & D & Epost).
    exists (nine c1 c2 c3 c4 c5 c6 c7 c8 c9).
    split; [now apply nine_digits_nine |]. split.
    { rewrite Epost. apply contains_middle. }
    assert (I : findall_item pattern_nueve post o =
                PyStr (nine c1 c2 c3 c4 c5 c6 c7 c8 c9)).
    { unfold findall_item. cbn [pattern_nueve ngroups times Nat.add].
      rewrite Epost at 1. now rewrite consumed_append. }
    rewrite I. split; [reflexivity |]. now apply normalize_nine.
Qed.

(** X2: for a text of code points below 256, every number the extractor
    returns is ["+34"] followed by nine digits [0-9] that stand in a row in
    the text, the first of them 6, 7, 8 or 9.  (Beyond that range [\d] takes
    other decimal digits too, and the digits returned need not be [0-9].) *)
Theorem extract_phone_sound (text p : string) :
  In p (extract_phone_from_text (Some text)) ->
  exists d : string,
    nine_digits d = true /\ contains d text /\ p = ("+34" ++ d)%string.
Proof.
  rewrite extract_phone_first_seen, first_seen_In, filter_In.
  unfold candidates. rewrite in_map_iff. intros [(x & <- & Hx) Hlong].
  apply raw_matches_sound in Hx. destruct Hx as [Hshort | (d & N & C & _ & E)].
  - congruence.
  - exists d. auto.
Qed.

Lemma extract_phone_sound_witness :
  exists d : string,
    nine_digits d = true /\
    contains d "Tel. +34 612 34 56 78 / 655443322" /\
    "+34655443322" = ("+34" ++ d)%string.
Proof.
  apply (extract_phone_sound "Tel. +34 612 34 56 78 / 655443322" "+34655443322").
  vm_compute. auto.
Defined.

(** ** Nine digits in a row are never missed *)

Lemma findall_finds (ic : bool) (r : regex) (pre post : string) (o : outcome) :
  Re.match_here ic r false post = Some o ->
  Re.findall ic r (pre ++ post) <> [].
Proof.
  intros E. unfold Re.findall. induction pre as [| c pre IH].
  - cbn [append]. destruct post as [| c post]; cbn [scan]; rewrite E.
    + destruct (String.length "" - String.length (fst o)); discriminate.
    + destruct (String.length (String c post) - String.length (fst o)); discriminate.
  - cbn [append scan].
    destruct (Re.match_here ic r false (String c (pre ++ post))) as [o' |].
    + destruct (String.length (String c (pre ++ post)) - String.length (fst o'));
        discriminate.
    + cbn [app]. exact IH.
Qed.

Lemma nueve_nine_then (c1 c2 c3 c4 c5 c6 c7 c8 c9 : ascii) (post : string) :
  Chars.one_of "6789" c1 = true ->
  forallb Chars.digit [c2; c3; c4; c5; c6; c7; c8; c9] = true ->
  Re.match_here true pattern_nueve false (nine c1 c2 c3 c4 c5 c6 c7 c8 c9 ++ post) =
  Some (post, []).
Proof.
  intros L D. unfold Re.match_here, pattern_nueve, nine. cbn [append].
  rewrite run_seq.
  rewrite run_charset_hit
    by (destruct (lead_cases c1 L) as [-> | [-> | [-> | ->]]]; reflexivity).
  rewrite (run_times true Chars.digit 8 _ _ [c2; c3; c4; c5; c6; c7; c8; c9]
                     post [] eq_refl).
  - reflexivity.
  - cbn [forallb] in D |- *. repeat rewrite andb_true_iff in D.
    destruct D as (D2 & D3 & D4 & D5 & D6 & D7 & D8 & D9 & _).
    apply digit_tests in D2, D3, D4, D5, D6, D7, D8, D9.
    destruct D2 as (-> & _), D3 as (-> & _), D4 as (-> & _), D5 as (-> & _),
             D6 as (-> & _), D7 as (-> & _), D8 as (-> & _), D9 as (-> & _).
    reflexivity.
Qed.

Lemma nine_digits_inv (d : string) :
  nine_digits d = true ->
  exists c1 c2 c3 c4 c5 c6 c7 c8 c9 : ascii,
    d = nine c1 c2 c3 c4 c5 c6 c7 c8 c9 /\
    Chars.one_of "6789" c1 = true /\
    forallb Chars.digit [c2; c3; c4; c5; c6; c7; c8; c9] = true.
Proof.
  unfold nine_digits. rewrite !andb_true_iff. intros [[L D] Hd].
  apply Nat.eqb_eq in L.
  destruct d as [| c1 [| c2 [| c3 [| c4 [| c5 [| c6 [| c7 [| c8 [| c9 [| c10 d]]]]]]]]]];
    try discriminate L.
  cbn [list_ascii_of_string forallb] in D. apply andb_true_iff in D.
  destruct D as [_ D]. exists c1, c2, c3, c4, c5, c6, c7, c8, c9. auto.
Qed.

(** X3: for a text of code points below 256 that has nine digits [0-9] in a
    row, the first of them 6, 7, 8 or 9, the extractor returns a number made
    of such a run of the text.  (Beyond that range a run led by other decimal
    digits can take the match instead.) *)
Theorem extract_phone_finds_run (text d : string) :
  nine_digits d = true -> contains d text ->
  exists d' : string,
    nine_digits d' = true /\ contains d' text /\
    In ("+34" ++ d')%string (extract_phone_from_text (Some text)).
Proof.
  intros N (pre & post & ->).
  destruct (nine_digits_inv d N) as (c1 & c2 & c3 & c4 & c5 & c6 & c7 & c8 & c9
                                     & -> & L & D).
  pose proof (findall_finds true pattern_nueve pre _ _
                (nueve_nine_then c1 c2 c3 c4 c5 c6 c7 c8 c9 post L D)) as F.
  destruct (Re.findall true pattern_nueve
              (pre ++ nine c1 c2 c3 c4 c5 c6 c7 c8 c9 ++ post)) as [| x l] eqn:Efind;
    [congruence |].
  assert (Hx : In x (raw_matches (pre ++ nine c1 c2 c3 c4 c5 c6 c7 c8 c9 ++ post))).
  { unfold raw_matches, patterns. apply in_flat_map. exists pattern_nueve.
    split; [cbn; auto |]. rewrite Efind. now left. }
  assert (Hx' : In x (Re.findall true pattern_nueve
                        (pre ++ nine c1 c2 c3 c4 c5 c6 c7 c8 c9 ++ post)))
    by (rewrite Efind; now left).
  apply findall_sound in Hx'. destruct Hx' as (pre' & post' & b & o & Et & E & Ex).
  destruct (nueve_match b post' o E)
    as (e1 & e2 & e3 & e4 & e5 & e6 & e7 & e8 & e9 & L' & D' & Epost).
  exists (nine e1 e2 e3 e4 e5 e6 e7 e8 e9).
  split; [now apply nine_digits_nine |]. split.
  { rewrite Et, Epost. apply contains_middle. }
  assert (I : x = PyStr (nine e1 e2 e3 e4 e5 e6 e7 e8 e9)).
  { rewrite Ex. unfold findall_item. cbn [pattern_nueve ngroups times Nat.add].
    rewrite Epost at 1. now rewrite consumed_append. }
  rewrite extract_phone_first_seen, first_seen_In, filter_In. split.
  - unfold candidates. apply in_map_iff. exists x. split; [| exact Hx].
    rewrite I. now apply normalize_nine.
  - reflexivity.
Qed.

Lemma extract_phone_finds_run_witness :
  exists d' : string,
    nine_digits d' = true /\
    contains d' "llamar al 0034612345678 (tardes)" /\
    In ("+34" ++ d')%string
       (extract_phone_from_text (Some "llamar al 0034612345678 (tardes)")).
Proof.
  apply (extract_phone_finds_run "llamar al 0034612345678 (tardes)" "612345678" eq_refl).
  exists "llamar al 0034", " (tardes)". reflexivity.
Defined.

(** ** What the email pattern can report *)

Lemma iter_charset (ic : bool) (p : ascii -> bool) (n : nat) :
  forall s s' : string,
    iter (matches ic (Charset p)) n s s' ->
    exists x : string,
      s = (x ++ s')%string /\ String.length x = n /\
      forallb (Chars.test ic p) (list_ascii_of_string x) = true.
Proof.
  induction n as [| n IH]; intros s s' It; cbn [iter matches] in It.
  - exists "". now subst.
  - destruct It as (m & (c & -> & T) & It). apply IH in It.
    destruct It as (x & -> & <- & F). exists (String c x).
    cbn [append String.length list_ascii_of_string forallb]. now rewrite T, F.
Qed.

Lemma forallb_impl {A : Type} (p q : A -> bool) (l : list A) :
  (forall a, p a = true -> q a = true) -> forallb p l = true -> forallb q l = true.
Proof.
  intros I. induction l as [| a l IH]; cbn; [reflexivity |].
  rewrite !andb_true_iff. intros [Ha Hl]. auto.
Qed.

Lemma icase_alpha (c : ascii) :
  Chars.test true Chars.alpha c = true -> Chars.alpha c = true.
Proof. intros T. icase_fact c. Qed.

Lemma icase_local (c : ascii) :
  Chars.test true (fun c => Chars.alpha c || Chars.digit c || Chars.one_of "._%+-" c) c
    = true ->
  Chars.alpha c || Chars.digit c || Chars.one_of "._%+-" c = true.
Proof. intros T. icase_fact c. Qed.

Lemma icase_domain (c : ascii) :
  Chars.test true (fun c => Chars.alpha c || Chars.digit c || Chars.one_of ".-" c) c
    = true ->
  Chars.alpha c || Chars.digit c || Chars.one_of ".-" c = true.
Proof. intros T. icase_fact c. Qed.

Lemma nonempty_length (x : string) : 1 <= String.length x -> x <> "".
Proof. destruct x; cbn; [lia | discriminate]. Qed.

(** A match of the email pattern has the shape [local@domain.tld]. *)
Lemma email_match (b : bool) (post : string) (o : outcome) :
  Re.match_here true pattern_email b post = Some o ->
  exists e : string,
    email_shape e /\ post = (e ++ fst o)%string /\
    findall_item pattern_email post o = PyStr e.
Proof.
  intros E. apply match_here_sound in E. destruct E as [M _].
  unfold pattern_email, plus, at_least in M. cbn [seqs matches] in M.
  destruct M as (m1 & (n1 & Hn1 & _ & It1) & m2 & (c2 & -> & T2)
                 & m3 & (n3 & Hn3 & _ & It3) & m4 & (c4 & -> & T4)
                 & n5 & Hn5 & _ & It5).
  apply iter_charset in It1, It3, It5.
  destruct It1 as (l & -> & L1 & F1), It3 as (d & -> & L3 & F3),
           It5 as (tld & -> & L5 & F5).
  apply icase_lit in T2; [| cbn; intuition]. apply icase_lit in T4; [| cbn; intuition].
  subst c2 c4.
  assert (Epost : (l ++ String "@" (d ++ String "." (tld ++ fst o)))%string =
                  ((l ++ "@" ++ d ++ "." ++ tld) ++ fst o)%string).
  { repeat first [rewrite append_assoc | progress cbn [append]]. reflexivity. }
  exists (l ++ "@" ++ d ++ "." ++ tld)%string. split; [| split].
  - exists l, d, tld. split; [reflexivity |].
    split; [apply nonempty_length; lia |]. split; [apply nonempty_length; lia |].
    split; [lia |]. unfold all_chars.
    split; [exact (forallb_impl _ _ _ icase_local F1) |].
    split; [exact (forallb_impl _ _ _ icase_domain F3) |].
    exact (forallb_impl _ _ _ icase_alpha F5).
  - exact Epost.
  - unfold findall_item.
    change (ngroups pattern_email) with 0. cbn iota.
    rewrite Epost. now rewrite consumed_append.
Qed.

(** X4: for a text of code points below 256, every address the extractor
    returns has the shape [local@domain.tld] and stands in the text.
    (Beyond that range IGNORECASE lets the letter classes take U+212A and
    U+017F, so the last part need not be ASCII letters.) *)
Theorem extract_email_sound `{Py.SetOrder} (text e : string) :
  In e (extract_email_from_text (Some text)) ->
  email_shape e /\ contains e text.
Proof.
  destruct text as [| c text]; [intros [] |].
  cbn [extract_email_from_text]. rewrite Py.list_of_set_In.
  unfold email_matches. rewrite in_map_iff. intros (x & <- & Hx).
  apply findall_sound in Hx. destruct Hx as (pre & post & b & o & -> & E & ->).
  apply email_match in E. destruct E as (e & Sh & Epost & ->).
  cbn [as_str]. split; [exact Sh |]. rewrite Epost. apply contains_middle.
Qed.

Lemma extract_email_sound_witness :
  email_shape "a.b@example.co" /\
  contains "a.b@example.co" "Contact: a.b@example.co, again a.b@example.co".
Proof.
  apply (@extract_email_sound first_seen_order).
  vm_compute. auto.
Defined.

(** ** The identifier of a listing *)

Lemma search_sound (ic : bool) (r : regex) (s : string) (m : string) (caps : captures) :
  Re.search ic r s = Some (m, caps) ->
  exists (pre post : string) (o : outcome),
    s = (pre ++ post)%string /\ Re.match_here ic r false post = Some o /\
    m = Re.consumed post (fst o) /\ caps = snd o.
Proof.
  induction s as [| c s IH]; cbn [Re.search].
  - destruct (Re.match_here ic r false "") as [o |] eqn:E; [| discriminate].
    intros [= <- <-]. exists "", "", o. auto.
  - destruct (Re.match_here ic r false (String c s)) as [o |] eqn:E.
    + intros [= <- <-]. exists "", (String c s), o. auto.
    + intros Es. apply IH in Es. destruct Es as (pre & post & o & -> & ? & ? & ?).
      exists (String c pre), post, o. auto.
Qed.

Lemma matches_lits (p : string) :
  forall s s' : string, matches false (lits p) s s' -> s = (p ++ s')%string.
Proof.
  induction p as [| a p IH]; intros s s' M.
  - exact M.
  - destruct p as [| b p].
    + cbn [lits matches] in M. destruct M as (c & -> & T).
      unfold Chars.test, Chars.lit in T. apply Ascii.eqb_eq in T. now subst.
    + change (lits (String a (String b p)))
        with (Seq (Charset (Chars.lit a)) (lits (String b p))) in M.
      cbn [matches] in M. destruct M as (m & (c & -> & T) & M).
      unfold Chars.test, Chars.lit in T. apply Ascii.eqb_eq in T. subst c.
      apply IH in M. now subst.
Qed.

(** A match of the identifier pattern is [/inmueble/], digits, a slash; the
    group holds the digits. *)
Lemma inmueble_match (post : string) (o : outcome) :
  Re.match_here false pattern_inmueble false post = Some o ->
  exists i : string,
    i <> "" /\ all_chars Chars.digit i /\
    post = ("/inmueble/" ++ i ++ "/" ++ fst o)%string /\
    Re.group_text (snd o) 0 = i.
Proof.
  unfold Re.match_here, pattern_inmueble. cbn [seqs]. rewrite run_seq. intros E.
  apply run_sound in E. destruct E as (s1 & caps1 & M1 & E & C1).
  apply matches_lits in M1. rewrite (C1 eq_refl) in E. clear C1 caps1.
  rewrite run_seq in E. cbn [run] in E.
  apply run_sound in E. destruct E as (s2 & caps2 & M2 & E & C2).
  rewrite (C2 eq_refl) in E. clear C2 caps2.
  unfold plus in M2. cbn [matches] in M2. destruct M2 as (n & Hn & _ & It).
  apply iter_charset in It. destruct It as (i & -> & Li & Fi).
  destruct s2 as [| c s3]; [discriminate |].
  destruct (Chars.test false (Chars.lit "/") c) eqn:T; [| discriminate].
  unfold Chars.test, Chars.lit in T. apply Ascii.eqb_eq in T. subst c.
  rewrite consumed_append in E. cbn in E. injection E as <-.
  exists i. split; [apply nonempty_length; lia |]. split; [exact Fi |].
  split; [| reflexivity]. rewrite M1. reflexivity.
Qed.

(** X5: for a URL of code points below 256, the identifier, when there is
    one, is a run of digits [0-9] that stands in the URL between
    [/inmueble/] and a slash.  (Beyond that range [\d] takes other decimal
    digits too.) *)
Theorem property_id_sound (url_abs i : string) :
  property_id url_abs = Some i ->
  i <> "" /\ all_chars Chars.digit i /\
  contains ("/inmueble/" ++ i ++ "/") url_abs.
Proof.
  unfold property_id.
  destruct (Re.search false pattern_inmueble url_abs) as [[m caps] |] eqn:E;
    [| discriminate].
  intros [= <-]. apply search_sound in E.
  destruct E as (pre & post & o & -> & E & _ & ->).
  apply inmueble_match in E. destruct E as (i & Hne & Hd & -> & ->).
  split; [exact Hne |]. split; [exact Hd |].
  exists pre, (fst o).
  repeat first [rewrite append_assoc | progress cbn [append]]. reflexivity.
Qed.

Lemma property_id_sound_witness :
  "12345678" <> "" /\ all_chars Chars.digit "12345678" /\
  contains ("/inmueble/" ++ "12345678" ++ "/")
           "https://www.idealista.com/inmueble/12345678/".
Proof.
  apply (property_id_sound "https://www.idealista.com/inmueble/12345678/" "12345678").
  vm_compute. reflexivity.
Defined.

(** ** What a detail page yields *)

Section FetcherAccounting.

Context `{Py.SetOrder} `{Site}.

Lemma gather_contacts (elems : list string) (c : contacts) :
  fold_left
    (fun contacts elem_text =>
       Contacts (phones contacts ++ extract_phone_from_text (Some elem_text))
                (emails contacts ++ extract_email_from_text (Some elem_text)))
    elems c =
  Contacts (phones c ++ flat_map (fun t => extract_phone_from_text (Some t)) elems)
           (emails c ++ flat_map (fun t => extract_email_from_text (Some t)) elems).
Proof.
  revert c. induction elems as [| t elems IH]; intros c; cbn [fold_left flat_map].
  - rewrite !app_nil_r. now destruct c.
  - rewrite IH. cbn [phones emails]. now rewrite <- !app_assoc.
Qed.

Lemma scrape_property_detail_parsed (property_url : string) (w : world)
      (html : string) (sp : soup) :
  urlopen_read w property_url = Ret html -> BeautifulSoup html = Ret sp ->
  scrape_property_detail property_url w =
  (Ret (Contacts
          (Py.list_of_set
             (flat_map (fun t => extract_phone_from_text (Some t))
                       (page_text sp :: contact_elements sp)))
          (Py.list_of_set
             (flat_map (fun t => extract_email_from_text (Some t))
                       (page_text sp :: contact_elements sp)))),
   sent w property_url).
Proof.
  intros E1 E2. unfold scrape_property_detail, try_except, bind, http_get, lift.
  rewrite E1, E2. rewrite gather_contacts. reflexivity.
Qed.

(** X6: a detail page that is fetched and parsed yields the numbers and the
    addresses of its text and of its contact elements, each once, and leaves
    no trace but the request. *)
Theorem scrape_property_detail_contents (property_url : string) (w : world)
        (html : string) (sp : soup) :
  urlopen_read w property_url = Ret html -> BeautifulSoup html = Ret sp ->
  exists c : contacts,
    scrape_property_detail property_url w = (Ret c, sent w property_url) /\
    NoDup (phones c) /\ NoDup (emails c) /\
    (forall p : string,
        In p (phones c) <->
        exists t : string,
          In t (page_text sp :: contact_elements sp) /\
          In p (extract_phone_from_text (Some t))) /\
    (forall e : string,
        In e (emails c) <->
        exists t : string,
          In t (page_text sp :: contact_elements sp) /\
          In e (extract_email_from_text (Some t))).
Proof.
  intros E1 E2. eexists. split; [exact (scrape_property_detail_parsed _ _ _ _ E1 E2) |].
  cbn [phones emails].
  split; [apply Py.list_of_set_NoDup |]. split; [apply Py.list_of_set_NoDup |].
  split; intros x; rewrite Py.list_of_set_In, in_flat_map; reflexivity.
Qed.

(** The detail fetcher sends one request and leaves the clock alone. *)
Lemma scrape_property_detail_world (property_url : string) (w w' : world) (c : contacts) :
  scrape_property_detail property_url w = (Ret c, w') ->
  requests w' = requests w ++ [property_url] /\ clock w' = clock w.
Proof.
  destruct (urlopen_read w property_url) as [html | e] eqn:E1.
  - destruct (BeautifulSoup html) as [sp | e] eqn:E2.
    + rewrite (scrape_property_detail_parsed _ _ _ _ E1 E2). intros [= _ <-]. auto.
    + rewrite (scrape_property_detail_parse_fails _ _ _ _ E1 E2). intros [= _ <-]. auto.
  - rewrite (scrape_property_detail_fetch_fails _ _ _ E1). intros [= _ <-]. auto.
Qed.

Lemma visited_grows (a : article) (url_abs : string) (c : contacts) (w' : world)
      (properties : list listing) :
  (visited a url_abs c w' properties = properties \/
   visited a url_abs c w' properties =
     properties ++ [make_listing a (property_id url_abs) url_abs c (clock w')]).
Proof. unfold visited. destruct (nonempty (phones c) || nonempty (emails c)); auto. Qed.

(** ** Requests, pauses and the limit of the listing fetcher *)

Lemma detail_candidates_skip (a : article) (rest : list article) :
  is_agency a = true \/ resolve_url a = Ret None \/
  resolve_url a = Ret (Some EmptyString) ->
  detail_candidates (a :: rest) = detail_candidates rest.
Proof.
  intros Hs. unfold detail_candidates. cbn [flat_map].
  destruct Hs as [-> | [-> | ->]]; [reflexivity | |];
    destruct (is_agency a); reflexivity.
Qed.

Lemma detail_candidates_visit (a : article) (rest : list article) (ch : ascii) (u : string) :
  is_agency a = false -> resolve_url a = Ret (Some (String ch u)) ->
  detail_candidates (a :: rest) = String ch u :: detail_candidates rest.
Proof.
  intros Ha Hu. unfold detail_candidates. cbn [flat_map]. now rewrite Ha, Hu.
Qed.

(** A loop that returns has asked for the first [n] detail pages of the
    candidates, in page order and once each, and has paused two seconds
    after each; it stopped before the last candidate only with the list
    full; it only appended records, one at most for each page asked for. *)
Lemma scrape_articles_accounting (max_properties : Z) (arts : list article) :
  forall (properties properties' : list listing) (w w' : world),
    scrape_articles max_properties arts properties w = (Ret properties', w') ->
    exists (n : nat) (added : list listing),
      n <= length (detail_candidates arts) /\
      requests w' = requests w ++ firstn n (detail_candidates arts) /\
      clock w' = (clock w + 2 * Z.of_nat n)%Z /\
      properties' = properties ++ added /\
      length added <= n /\
      (forall r, In r added -> In (Listing.url r) (firstn n (detail_candidates arts))) /\
      (n = length (detail_candidates arts) \/
       (max_properties <= Z.of_nat (length properties'))%Z) /\
      (Z.of_nat (length properties') <=
       Z.max (Z.of_nat (length properties)) max_properties)%Z.
Proof.
  induction arts as [| a rest IH]; intros properties properties' w w' E.
  - injection E as <- <-. exists 0, []. rewrite !app_nil_r. cbn.
    repeat split; auto; try lia; try (intros r []).
  - destruct (Z.geb_spec (Z.of_nat (length properties)) max_properties) as [Hfull | Hroom].
    { rewrite scrape_articles_full in E by assumption. injection E as <- <-.
      exists 0, []. rewrite !app_nil_r. cbn [firstn length].
      repeat split; auto; try lia; try (intros r []). }
    destruct (is_agency a) eqn:Ha.
    { rewrite scrape_articles_agency in E by assumption.
      rewrite detail_candidates_skip by auto. now apply IH. }
    destruct (resolve_url a) as [[[| ch u] |] | e] eqn:Hu.
    + rewrite scrape_articles_unlinked in E by auto.
      rewrite detail_candidates_skip by auto. now apply IH.
    + destruct (scrape_property_detail_returns (String ch u)
                  (logged w INFO (announce (String ch u)))) as (c & w1 & Hc).
      rewrite (scrape_articles_visit max_properties a rest properties w w1 (String ch u) c)
        in E by (auto; discriminate).
      apply scrape_property_detail_world in Hc. destruct Hc as [Hreq Hclock].
      cbn [requests clock logged] in Hreq, Hclock.
      apply IH in E.
      destruct E as (n & added & Hn & Er & Ec & Ep & Hlen & Hurl & Hstop & Hmax).
      cbn [requests clock slept] in Er, Ec.
      rewrite (detail_candidates_visit a rest ch u Ha Hu).
      destruct (visited_grows a (String ch u) c w1 properties) as [V | V];
        rewrite V in Ep, Hmax.
      * exists (S n), added. cbn [firstn length].
        rewrite Er, Hreq, Ec, <- app_assoc. cbn [app].
        split; [lia |]. split; [reflexivity |]. split; [rewrite Hclock; lia |].
        split; [exact Ep |]. split; [lia |].
        split; [intros r Hr; right; auto |].
        split; [destruct Hstop as [-> | Hs]; auto | exact Hmax].
      * exists (S n),
          (make_listing a (property_id (String ch u)) (String ch u) c (clock w1) :: added).
        cbn [firstn length].
        rewrite Er, Hreq, Ec, <- !app_assoc. cbn [app].
        split; [lia |]. split; [reflexivity |]. split; [rewrite Hclock; lia |].
        split; [rewrite Ep, <- app_assoc; reflexivity |]. split; [lia |].
        split; [intros r [<- | Hr]; [now left | right; auto] |].
        split; [destruct Hstop as [-> | Hs]; auto |].
        rewrite length_app in Hmax. cbn [length] in Hmax.
        clear - Hmax Hroom. lia.
    + rewrite scrape_articles_unlinked in E by auto.
      rewrite detail_candidates_skip by auto. now apply IH.
    + rewrite (scrape_articles_refused max_properties a rest properties w e) in E
        by assumption.
      discriminate.
Qed.

(** Whatever the loop ends with, it has only added requests. *)
Lemma scrape_articles_requests (max_properties : Z) (arts : list article) :
  forall (properties : list listing) (w : world),
    exists more : list string,
      requests (snd (scrape_articles max_properties arts properties w)) =
      requests w ++ more.
Proof.
  induction arts as [| a rest IH]; intros properties w.
  - exists []. cbn. now rewrite app_nil_r.
  - destruct (Z.geb_spec (Z.of_nat (length properties)) max_properties) as [Hfull | Hroom].
    { rewrite scrape_articles_full by assumption. exists []. cbn.
      now rewrite app_nil_r. }
    destruct (is_agency a) eqn:Ha.
    { rewrite scrape_articles_agency by assumption. apply IH. }
    destruct (resolve_url a) as [[[| ch u] |] | e] eqn:Hu.
    + rewrite scrape_articles_unlinked by auto. apply IH.
    + destruct (scrape_property_detail_returns (String ch u)
                  (logged w INFO (announce (String ch u)))) as (c & w1 & Hc).
      rewrite (scrape_articles_visit max_properties a rest properties w w1 (String ch u) c)
        by (auto; discriminate).
      apply scrape_property_detail_world in Hc. destruct Hc as [Hreq _].
      cbn [requests logged] in Hreq.
      destruct (IH (visited a (String ch u) c w1 properties) (slept w1 2)) as [more E].
      cbn [requests slept] in E. exists (String ch u :: more).
      rewrite E, Hreq, <- app_assoc. reflexivity.
    + rewrite scrape_articles_unlinked by auto. apply IH.
    + rewrite (scrape_articles_refused max_properties a rest properties w e)
        by assumption.
      exists []. cbn. now rewrite app_nil_r.
Qed.

End FetcherAccounting.

Section ListingFetcherProperties.

Context `{Py.SetOrder} `{Site}.

Lemma scrape_idealista_contacts_bound (base_url : string) (page max_properties : Z)
      (w w' : world) (properties : list listing) :
  scrape_idealista_contacts base_url page max_properties w = (Ret properties, w') ->
  (Z.of_nat (length properties) <= Z.max 0 max_properties)%Z.
Proof.
  intros E. apply scrape_idealista_contacts_loop in E.
  destruct E as (html & sp & w1 & _ & _ & El & _).
  apply scrape_articles_accounting in El.
  destruct El as (n & added & _ & _ & _ & _ & _ & _ & _ & Hmax). exact Hmax.
Qed.

(** X7: the list never has more records than the limit asks for, and none
    when the limit is zero or negative. *)
Theorem scrape_idealista_contacts_limit (base_url : string) (page max_properties : Z)
        (w w' : world) (properties : list listing) :
  scrape_idealista_contacts base_url page max_properties w = (Ret properties, w') ->
  (Z.of_nat (length properties) <= Z.max 0 max_properties)%Z.
Proof. apply scrape_idealista_contacts_bound. Qed.

(** Whatever the listing fetcher ends with, its first attempt was the
    results page. *)
Lemma scrape_idealista_contacts_first (base_url : string) (page max_properties : Z)
      (w : world) :
  exists more : list string,
    requests (snd (scrape_idealista_contacts base_url page max_properties w)) =
    requests w ++ build_search_url base_url page :: more.
Proof.
  destruct (urlopen_read w (build_search_url base_url page)) as [html | e] eqn:E1.
  - destruct (BeautifulSoup html) as [sp | e] eqn:E2.
    + rewrite (scrape_idealista_contacts_parsed _ _ _ _ _ _ E1 E2).
      destruct (scrape_articles_requests max_properties (articles sp) []
                  (sent w (build_search_url base_url page))) as [more E].
      exists more.
      destruct (scrape_articles max_properties (articles sp) []
                  (sent w (build_search_url base_url page))) as [[p | e] w1];
        cbn [snd requests logged sent] in *; rewrite E, <- app_assoc; reflexivity.
    + exists []. unfold scrape_idealista_contacts. unfold bind at 1. unfold http_get.
      rewrite E1. unfold bind at 1. unfold lift. rewrite E2. reflexivity.
  - exists []. unfold scrape_idealista_contacts. unfold bind at 1. unfold http_get.
    rewrite E1. reflexivity.
Qed.

(** X8: of a run that returns, the attempts to open a page are: the results
    page, then the detail pages of the first [n] candidates (the articles
    that are no agency's and have a link), in page order and once for each
    candidate; the clock advanced by two seconds for each of them; every
    record returned is of one of these pages, and there are no more records
    than pages; and the loop left candidates out only with the list full. *)
Theorem scrape_idealista_contacts_requests (base_url : string) (page max_properties : Z)
        (w w' : world) (html : string) (sp : soup) (properties : list listing) :
  urlopen_read w (build_search_url base_url page) = Ret html ->
  BeautifulSoup html = Ret sp ->
  scrape_idealista_contacts base_url page max_properties w = (Ret properties, w') ->
  exists n : nat,
    n <= length (detail_candidates (articles sp)) /\
    requests w' =
      requests w ++ build_search_url base_url page
                 :: firstn n (detail_candidates (articles sp)) /\
    clock w' = (clock w + 2 * Z.of_nat n)%Z /\
    length properties <= n /\
    (forall r : listing, In r properties ->
       In (Listing.url r) (firstn n (detail_candidates (articles sp)))) /\
    (n = length (detail_candidates (articles sp)) \/
     (max_properties <= Z.of_nat (length properties))%Z).
Proof.
  intros E1 E2 E.
  rewrite (scrape_idealista_contacts_parsed _ _ _ _ _ _ E1 E2) in E.
  destruct (scrape_articles max_properties (articles sp) []
              (sent w (build_search_url base_url page))) as [[p | e] w1] eqn:El;
    [| discriminate].
  injection E as <- <-.
  apply scrape_articles_accounting in El.
  destruct El as (n & added & Hn & Er & Ec & Ep & Hlen & Hurl & Hstop & _).
  cbn [app] in Ep. subst added. exists n.
  cbn [requests clock logged sent] in *. rewrite Er, Ec, <- app_assoc.
  cbn [app]. auto 10.
Qed.

Lemma resolve_url_raises (a : article) (e : exn) :
  resolve_url a = Raise e ->
  exists (t : anchor) (u : string),
    title_el a = Some t /\ href t = Some u /\
    urljoin "https://www.idealista.com" u = Raise e.
Proof.
  unfold resolve_url. destruct (title_el a) as [t |]; [| discriminate].
  destruct (href t) as [[| ch u] |] eqn:Hh; try discriminate.
  destruct (negb (Py.startswith (String ch u) "http")); [| discriminate].
  destruct (urljoin "https://www.idealista.com" (String ch u)) as [v | e'] eqn:Hj;
    [discriminate |].
  intros [= <-]. exists t, (String ch u). auto.
Qed.

(** X9: the listing fetcher raises the failure of the fetch of the results
    page, or of its parse, after that one attempt and with nothing logged;
    with the page fetched and parsed, what it raises is what [urljoin]
    raised on the link of an article that is no agency's.  The failures of
    detail pages do not come up. *)
Theorem scrape_idealista_contacts_raises (base_url : string) (page max_properties : Z)
        (w : world) (e : exn) :
  (urlopen_read w (build_search_url base_url page) = Raise e ->
   scrape_idealista_contacts base_url page max_properties w =
   (Raise e, sent w (build_search_url base_url page))) /\
  (forall html : string,
      urlopen_read w (build_search_url base_url page) = Ret html ->
      BeautifulSoup html = Raise e ->
      scrape_idealista_contacts base_url page max_properties w =
      (Raise e, sent w (build_search_url base_url page))) /\
  (forall (html : string) (sp : soup),
      urlopen_read w (build_search_url base_url page) = Ret html ->
      BeautifulSoup html = Ret sp ->
      fst (scrape_idealista_contacts base_url page max_properties w) = Raise e ->
      exists (a : article) (t : anchor) (u : string),
        In a (articles sp) /\ is_agency a = false /\
        title_el a = Some t /\ href t = Some u /\
        urljoin "https://www.idealista.com" u = Raise e).
Proof.
  split; [| split].
  - intros E1. unfold scrape_idealista_contacts. unfold bind at 1. unfold http_get.
    rewrite E1. reflexivity.
  - intros html E1 E2. unfold scrape_idealista_contacts. unfold bind at 1.
    unfold http_get. rewrite E1. unfold bind at 1. unfold lift. rewrite E2.
    reflexivity.
  - intros html sp E1 E2.
    rewrite (scrape_idealista_contacts_parsed _ _ _ _ _ _ E1 E2).
    pose proof (scrape_articles_records max_properties (articles sp) []
                  (sent w (build_search_url base_url page))) as O.
    destruct (scrape_articles max_properties (articles sp) []
                (sent w (build_search_url base_url page))) as [[p | e'] w1];
      [discriminate |].
    cbn. intros [= ->]. destruct O as (a & Ha & Hag & Hr).
    apply resolve_url_raises in Hr. destruct Hr as (t & u & ? & ? & ?).
    exists a, t, u. auto.
Qed.

End ListingFetcherProperties.

Lemma scrape_idealista_contacts_limit_witness :
  exists (properties : list listing) (w' : world),
    scrape_idealista_contacts "https://x/y/" 1 1 Demo.start = (Ret properties, w') /\
    (Z.of_nat (length properties) <= Z.max 0 1)%Z.
Proof.
  destruct (scrape_idealista_contacts "https://x/y/" 1 1 Demo.start)
    as [[properties | e] w'] eqn:E; [| vm_compute in E; discriminate E].
  exists properties, w'. split; [reflexivity |].
  exact (scrape_idealista_contacts_limit _ _ _ _ _ _ E).
Defined.

Lemma scrape_idealista_contacts_requests_witness :
  exists (properties : list listing) (w' : world) (n : nat),
    scrape_idealista_contacts "https://x/y/" 1 10 Demo.start = (Ret properties, w') /\
    requests w' =
      requests Demo.start ++ "https://x/y/"
        :: firstn n (detail_candidates (articles Demo.search_soup)) /\
    clock w' = (clock Demo.start + 2 * Z.of_nat n)%Z /\
    n = length (detail_candidates (articles Demo.search_soup)).
Proof.
  destruct (scrape_idealista_contacts "https://x/y/" 1 10 Demo.start)
    as [[properties | e] w'] eqn:E; [| vm_compute in E; discriminate E].
  destruct (@scrape_idealista_contacts_requests first_seen_order demo_site
              "https://x/y/" 1 10 Demo.start w' "search" Demo.search_soup properties
              eq_refl eq_refl E)
    as (n & _ & Er & Ec & _ & _ & [Hn | Hfull]).
  - exists properties, w', n. auto.
  - exfalso. vm_compute in E. injection E as Ep _. subst properties.
    vm_compute in Hfull. apply Hfull. reflexivity.
Defined.

Lemma scrape_idealista_contacts_raises_witness :
  fst (@scrape_idealista_contacts first_seen_order demo_site "https://x/y/" 3 10
         Demo.start) = Raise (Exception "HTTP Error 404: Not Found") /\
  exists (a : article) (t : anchor) (u : string),
    In a [Demo.owner; DemoJoin.malformed; Demo.silent] /\ is_agency a = false /\
    title_el a = Some t /\ href t = Some u /\
    DemoJoin.join "https://www.idealista.com" u = Raise (Exception "Invalid IPv6 URL").
Proof.
  split.
  - exact (f_equal fst
             (proj1 (@scrape_idealista_contacts_raises first_seen_order demo_site
                       "https://x/y/" 3 10 Demo.start
                       (Exception "HTTP Error 404: Not Found")) eq_refl)).
  - apply (proj2 (proj2 (@scrape_idealista_contacts_raises first_seen_order
                           broken_link_site "https://x/y/" 1 10 Demo.start
                           (Exception "Invalid IPv6 URL")))
                 "search" (Soup "resultados" [] [Demo.owner; DemoJoin.malformed; Demo.silent])
                 eq_refl eq_refl).
    vm_compute. reflexivity.
Defined.

Lemma scrape_property_detail_contents_witness :
  exists c : contacts,
    scrape_property_detail "https://www.idealista.com/inmueble/2/" Demo.start =
      (Ret c, sent Demo.start "https://www.idealista.com/inmueble/2/") /\
    In "+34612345678" (phones c) /\ In "a.b@example.co" (emails c).
Proof.
  destruct (@scrape_property_detail_contents first_seen_order demo_site
              "https://www.idealista.com/inmueble/2/" Demo.start "detail2"
              (Soup "Contact: a.b@example.co, tel 612345678"
                    ["612345678"; "a.b@example.co"] [])
              eq_refl eq_refl) as (c & E & _ & _ & Hp & He).
  exists c. split; [exact E |]. split.
  - apply Hp. exists "612345678". split; [cbn; auto | vm_compute; auto].
  - apply He. exists "a.b@example.co". split; [cbn; auto | vm_compute; auto].
Defined.

(** ** The contacts endpoint *)

Section ApiProperties.

Context `{Py.SetOrder} `{Site} `{Flask}.

Lemma get_contacts_bad_argument (city : string) (args : list (string * string))
      (w : world) (e : exn) :
  int_arg args "page" 1 = Raise e \/
  (exists page : Z, int_arg args "page" 1 = Ret page /\
                    int_arg args "limit" 10 = Raise e) ->
  get_contacts city args w =
  (Ret (ErrorBody (exn_message e) (isoformat (clock w)), 500%Z),
   logged w ERROR (endpoint_error e)).
Proof.
  intros [E | (page & E1 & E2)];
    unfold get_contacts, try_except, bind, lift;
    change (dict_item CIUDADES_ESPANA "madrid") with (Ret madrid_url).
  - rewrite E. reflexivity.
  - rewrite E1, E2. reflexivity.
Qed.

Lemma get_contacts_scrape (city : string) (args : list (string * string))
      (w : world) (page max_properties : Z) :
  int_arg args "page" 1 = Ret page ->
  int_arg args "limit" 10 = Ret max_properties ->
  get_contacts city args w =
  match scrape_idealista_contacts (city_url city) page max_properties
          (logged w INFO (endpoint_info city page)) with
  | (Ret data, w1) =>
      (Ret (ContactsBody (isoformat (clock w1)) (capitalize (lower_str city)) page
                         (Z.of_nat (length data)) data, 200%Z), w1)
  | (Raise e, w1) =>
      (Ret (ErrorBody (exn_message e) (isoformat (clock w1)), 500%Z),
       logged w1 ERROR (endpoint_error e))
  end.
Proof.
  intros E1 E2.
  unfold get_contacts, try_except, bind, lift.
  change (dict_item CIUDADES_ESPANA "madrid") with (Ret madrid_url).
  rewrite E1, E2. unfold logger.
  change (World (log w ++ [(INFO, _)]) (clock w) (requests w))
    with (logged w INFO (endpoint_info city page)).
  fold (city_url city).
  destruct (scrape_idealista_contacts (city_url city) page max_properties
              (logged w INFO (endpoint_info city page))) as [[data | e] w1];
    reflexivity.
Qed.

(** X10: the endpoint always answers: with status 200 and the records, as many
    as [count] says, each with a contact and no more than the limit; or with
    status 500 and the message of the failure, which is logged. *)
Theorem get_contacts_answers (city : string) (args : list (string * string)) (w : world) :
  exists (body : json_body) (status : Z) (w' : world),
    get_contacts city args w = (Ret (body, status), w') /\
    ((status = 200%Z /\
      exists (timestamp location : string) (page max_properties : Z) (data : list listing),
        body = ContactsBody timestamp location page (Z.of_nat (length data)) data /\
        int_arg args "limit" 10 = Ret max_properties /\
        (Z.of_nat (length data) <= Z.max 0 max_properties)%Z /\
        Forall has_contact data) \/
     (status = 500%Z /\
      exists (e : exn) (timestamp : string),
        body = ErrorBody (exn_message e) timestamp /\
        exists before, log w' = before ++ [(ERROR, endpoint_error e)])).
Proof.
  destruct (int_arg args "page" 1) as [page | e] eqn:E1.
  2:{ rewrite (get_contacts_bad_argument city args w e) by auto.
      do 3 eexists. split; [reflexivity |]. right. split; [reflexivity |].
      exists e. eexists. split; [reflexivity |]. now exists (log w). }
  destruct (int_arg args "limit" 10) as [max_properties | e] eqn:E2.
  2:{ rewrite (get_contacts_bad_argument city args w e) by eauto.
      do 3 eexists. split; [reflexivity |]. right. split; [reflexivity |].
      exists e. eexists. split; [reflexivity |]. now exists (log w). }
  rewrite (get_contacts_scrape city args w page max_properties E1 E2).
  destruct (scrape_idealista_contacts (city_url city) page max_properties
              (logged w INFO (endpoint_info city page))) as [[data | e] w1] eqn:Es.
  - do 3 eexists. split; [reflexivity |]. left. split; [reflexivity |].
    exists (isoformat (clock w1)), (capitalize (lower_str city)), page, max_properties, data.
    split; [reflexivity |]. split; [reflexivity |].
    split; [exact (scrape_idealista_contacts_bound _ _ _ _ _ _ Es) |].
    apply Forall_forall. intros r Hr.
    destruct (scrape_idealista_contacts_returned _ _ _ _ _ _ Es)
      as (html & sp & Ef & Ep).
    destruct (scrape_idealista_contacts_run _ _ _ _ _ _ _ _ Ef Ep Es r Hr)
      as (a & _ & _ & _ & Hhas).
    exact Hhas.
  - do 3 eexists. split; [reflexivity |]. right. split; [reflexivity |].
    exists e. eexists. split; [reflexivity |]. now exists (log w1).
Qed.

(** X11: an argument that [int] refuses is answered with status 500 and the
    message of the refusal, before any request is sent. *)
Theorem get_contacts_bad_number (city : string) (args : list (string * string))
        (w : world) (name value : string) (e : exn) :
  name = "page" \/ (name = "limit" /\ exists page, int_arg args "page" 1 = Ret page) ->
  lookup args name = Some value -> int_of_str value = Raise e ->
  exists w' : world,
    get_contacts city args w =
      (Ret (ErrorBody (exn_message e) (isoformat (clock w)), 500%Z), w') /\
    requests w' = requests w /\ clock w' = clock w /\
    log w' = log w ++ [(ERROR, endpoint_error e)].
Proof.
  intros Hname Hl He. exists (logged w ERROR (endpoint_error e)).
  split; [| cbn; auto].
  apply get_contacts_bad_argument.
  destruct Hname as [-> | [-> [page Hpage]]].
  - left. unfold int_arg. now rewrite Hl.
  - right. exists page. split; [exact Hpage |]. unfold int_arg. now rewrite Hl.
Qed.

(** X12: with arguments that [int] accepts the endpoint first asks for the
    results page of the city, whatever the case of its letters, when the
    cities endpoint lists it, and for that of Madrid otherwise; absent
    arguments stand for page 1 and limit 10. *)
Theorem get_contacts_city (city : string) (args : list (string * string))
        (w : world) (page max_properties : Z) :
  int_arg args "page" 1 = Ret page ->
  int_arg args "limit" 10 = Ret max_properties ->
  (exists (r : response) (w' : world) (more : list string),
      get_contacts city args w = (Ret r, w') /\
      requests w' = requests w ++ build_search_url (city_url city) page :: more) /\
  (In (lower_str city) listed_cities ->
   In (lower_str city, city_url city) CIUDADES_ESPANA) /\
  (~ In (lower_str city) listed_cities -> city_url city = madrid_url) /\
  (lookup args "page" = None -> page = 1%Z) /\
  (lookup args "limit" = None -> max_properties = 10%Z) /\
  (forall city' : string,
      lower_str city' = lower_str city ->
      get_contacts city' args w = get_contacts city args w).
Proof.
  intros E1 E2. split; [| split; [| split; [| split; [| split]]]].
  - rewrite (get_contacts_scrape city args w page max_properties E1 E2).
    destruct (scrape_idealista_contacts_first (city_url city) page max_properties
                (logged w INFO (endpoint_info city page))) as [more Er].
    cbn [requests logged] in Er.
    destruct (scrape_idealista_contacts (city_url city) page max_properties
                (logged w INFO (endpoint_info city page))) as [[data | e] w1];
      cbn [snd] in Er; do 2 eexists; exists more; (split; [reflexivity | exact Er]).
  - unfold city_url, dict_get, listed_cities. cbn [get_cities fst].
    generalize CIUDADES_ESPANA. intros d Hin.
    induction d as [| [k0 v] d IH]; cbn [map fst In lookup] in *; [contradiction |].
    destruct (String.eqb_spec k0 (lower_str city)) as [-> | N]; [now left |].
    destruct Hin as [Hk | Hin]; [contradiction |]. right. auto.
  - unfold city_url, dict_get, listed_cities. cbn [get_cities fst].
    generalize CIUDADES_ESPANA. intros d Hnot.
    induction d as [| [k0 v] d IH]; cbn [map fst In lookup] in *; [reflexivity |].
    destruct (String.eqb_spec k0 (lower_str city)) as [-> | N]; [tauto |].
    apply IH. tauto.
  - intros N. unfold int_arg in E1. rewrite N in E1. now injection E1.
  - intros N. unfold int_arg in E2. rewrite N in E2. now injection E2.
  - intros city' Ec. unfold get_contacts. now rewrite Ec.
Qed.

End ApiProperties.

Lemma get_contacts_answers_witness :
  exists (body : json_body) (w' : world),
    @get_contacts first_seen_order madrid_site demo_flask "Madrid" [("limit", "5")]
                  DemoApi.start = (Ret (body, 200%Z), w') /\
    success body = Some true.
Proof.
  destruct (@get_contacts_answers first_seen_order madrid_site demo_flask
              "Madrid" [("limit", "5")] DemoApi.start)
    as (body & status & w' & E & _).
  pose proof E as E'. vm_compute in E'. injection E' as Eb Es Ew.
  exists body, w'. split.
  - rewrite E, <- Es. reflexivity.
  - rewrite <- Eb. reflexivity.
Defined.

Lemma get_contacts_bad_number_witness :
  exists w' : world,
    @get_contacts first_seen_order madrid_site demo_flask "madrid" [("page", "dos")]
                  DemoApi.start =
      (Ret (ErrorBody "invalid literal for int() with base 10: 'dos'" "100", 500%Z), w') /\
    requests w' = [].
Proof.
  destruct (@get_contacts_bad_number first_seen_order madrid_site demo_flask
              "madrid" [("page", "dos")] DemoApi.start "page" "dos"
              (Exception "invalid literal for int() with base 10: 'dos'")
              (or_introl eq_refl) eq_refl eq_refl) as (w' & E & Er & _).
  exists w'. split; [exact E | exact Er].
Defined.

Lemma get_contacts_city_witness :
  exists (r : response) (w' : world) (more : list string),
    @get_contacts first_seen_order madrid_site demo_flask "Atlantis" [("page", "2")]
                  DemoApi.start = (Ret r, w') /\
    requests w' =
    "https://www.idealista.com/venta-viviendas/madrid-madrid/con-particulares/pagina-2.htm"
      :: more.
Proof.
  exact (proj1 (@get_contacts_city first_seen_order madrid_site demo_flask
                  "Atlantis" [("page", "2")] DemoApi.start 2%Z 10%Z eq_refl eq_refl)).
Defined.
